(** * BlackboardSync: the sync scheduler and the folder writer

    A shallow embedding of [blackboard_sync/sync.py] (class [BlackboardSync])
    and of [blackboard_sync/content/folder.py] (class [Folder]), followed by
    the properties of the scheduler and of the folder writer.

    Conventions of the embedding.
    - A [datetime] is an integer number of microseconds since the epoch,
      a [timedelta] a number of microseconds.  All instants are taken to
      be timezone-aware, so that they compare.  The constructor
      [timedelta(seconds=n)] and the sum of a datetime and a timedelta
      raise [OverflowError] out of their ranges, as in Python.
    - A Python attribute that [__init__] does not assign ([sess], [_cookies],
      [last_sync]) has type [attr]: reading it while [Unset] raises
      [AttributeError].
    - Methods run in the monad [M]: a state monad over [World] in which an
      exception carries the state reached when it was raised, since Python
      keeps the mutations made before a [raise].
    - The collaborators that are not part of the two files (the session
      constructor, the download job, the clock, the log file) are oracles:
      their results are inputs, and every call to them is recorded in the
      [trace] of the world.  [download()], the session constructor, and
      the creation of the log directory and of the log file may raise;
      building the job object is taken to succeed.
    - Console logging ([logger.debug/info/warning]) has no effect on the
      state and is left out. *)

From stdpp Require Import base strings list gmap.

Local Open Scope Z_scope.

(** ** Values *)

Definition datetime : Type := Z.

Definition microseconds (seconds : Z) : Z := seconds * 1000000.

(** [timedelta(seconds=n)] for an integer [n], as a number of
    microseconds.  The constructor normalises to days, seconds and
    microseconds and raises [OverflowError], here [None], unless the
    number of days is within 999999999 of zero. *)
Definition timedelta (seconds : Z) : option Z :=
  if bool_decide (-999999999 ≤ seconds `div` 86400 ≤ 999999999)
  then Some (microseconds seconds)
  else None.

(** [datetime.min] and [datetime.max]: the first instant of year 1 and
    the last microsecond of year 9999. *)
Definition datetime_min : datetime := -62135596800 * 1000000.
Definition datetime_max : datetime := 253402300799 * 1000000 + 999999.

(** [t + d] for a datetime [t] and a timedelta [d]: [OverflowError], here
    [None], when the sum is not a datetime. *)
Definition datetime_add (t : datetime) (d : Z) : option datetime :=
  if bool_decide (datetime_min ≤ t + d ≤ datetime_max)
  then Some (t + d)
  else None.

(** [pathlib.Path] as the list of its components. *)
Definition Path : Type := list string.

(** [p / name] for a relative [name]; joining the empty string leaves the
    path as it is. *)
Definition path_join (p : Path) (name : string) : Path :=
  if decide (name = EmptyString) then p else p ++ [name].

Definition CookieJar : Type := string.

Record Session := { username : string }.

(** The exception classes the scheduler distinguishes.  [ValueError] is the
    builtin class, [ConnectionError] the one of [requests.exceptions]; each
    constructor stands for the class and its subclasses, and [OtherError]
    for every class that none of the [except] clauses matches. *)
Inductive exn :=
| ValueError
| ConnectionError
| TypeError
| AttributeError
| OverflowError
| OtherError (name : string).

#[global] Instance exn_eq_dec : EqDecision exn.
Proof. solve_decision. Defined.

Inductive attr (A : Type) :=
| Unset
| Assigned (a : A).
Arguments Unset {A}.
Arguments Assigned {A} a.

(** Modelled from the spec: the configuration store [SyncConfig]
    ([config.py] is not among the sources).  It persists
    [download_location : path] and [last_sync_time : optional timestamp];
    a write goes through to the stored field and a read returns it. *)
Record SyncConfig := {
  download_location : Path;
  last_sync_time : option datetime
}.

Definition set_download_location (p : Path) (c : SyncConfig) : SyncConfig :=
  {| download_location := p; last_sync_time := last_sync_time c |}.

Definition set_last_sync_time (t : option datetime) (c : SyncConfig) : SyncConfig :=
  {| download_location := download_location c; last_sync_time := t |}.

(** ** The instance *)

Record BlackboardSync := {
  _sync_interval : Z;
  _last_sync : option datetime;
  _next_sync : option datetime;
  _is_logged_in : bool;
  _force_sync : bool;
  _is_syncing : bool;
  _is_active : bool;
  _config : SyncConfig;
  _cookies : attr CookieJar;
  sess : attr (option Session);
  last_sync : attr datetime
}.

Definition _log_directory : string := "log".
Definition _check_sleep_time : Z := 10.
Definition _max_retries : Z := 3.

Definition set_next_sync (v : option datetime) (s : BlackboardSync) : BlackboardSync :=
  {| _sync_interval := _sync_interval s; _last_sync := _last_sync s;
     _next_sync := v; _is_logged_in := _is_logged_in s;
     _force_sync := _force_sync s; _is_syncing := _is_syncing s;
     _is_active := _is_active s; _config := _config s;
     _cookies := _cookies s; sess := sess s; last_sync := last_sync s |}.

Definition set_is_logged_in (v : bool) (s : BlackboardSync) : BlackboardSync :=
  {| _sync_interval := _sync_interval s; _last_sync := _last_sync s;
     _next_sync := _next_sync s; _is_logged_in := v;
     _force_sync := _force_sync s; _is_syncing := _is_syncing s;
     _is_active := _is_active s; _config := _config s;
     _cookies := _cookies s; sess := sess s; last_sync := last_sync s |}.

Definition set_force_sync (v : bool) (s : BlackboardSync) : BlackboardSync :=
  {| _sync_interval := _sync_interval s; _last_sync := _last_sync s;
     _next_sync := _next_sync s; _is_logged_in := _is_logged_in s;
     _force_sync := v; _is_syncing := _is_syncing s;
     _is_active := _is_active s; _config := _config s;
     _cookies := _cookies s; sess := sess s; last_sync := last_sync s |}.

Definition set_is_syncing (v : bool) (s : BlackboardSync) : BlackboardSync :=
  {| _sync_interval := _sync_interval s; _last_sync := _last_sync s;
     _next_sync := _next_sync s; _is_logged_in := _is_logged_in s;
     _force_sync := _force_sync s; _is_syncing := v;
     _is_active := _is_active s; _config := _config s;
     _cookies := _cookies s; sess := sess s; last_sync := last_sync s |}.

Definition set_is_active (v : bool) (s : BlackboardSync) : BlackboardSync :=
  {| _sync_interval := _sync_interval s; _last_sync := _last_sync s;
     _next_sync := _next_sync s; _is_logged_in := _is_logged_in s;
     _force_sync := _force_sync s; _is_syncing := _is_syncing s;
     _is_active := v; _config := _config s;
     _cookies := _cookies s; sess := sess s; last_sync := last_sync s |}.

Definition set_config (v : SyncConfig) (s : BlackboardSync) : BlackboardSync :=
  {| _sync_interval := _sync_interval s; _last_sync := _last_sync s;
     _next_sync := _next_sync s; _is_logged_in := _is_logged_in s;
     _force_sync := _force_sync s; _is_syncing := _is_syncing s;
     _is_active := _is_active s; _config := v;
     _cookies := _cookies s; sess := sess s; last_sync := last_sync s |}.

Definition set_cookies (v : attr CookieJar) (s : BlackboardSync) : BlackboardSync :=
  {| _sync_interval := _sync_interval s; _last_sync := _last_sync s;
     _next_sync := _next_sync s; _is_logged_in := _is_logged_in s;
     _force_sync := _force_sync s; _is_syncing := _is_syncing s;
     _is_active := _is_active s; _config := _config s;
     _cookies := v; sess := sess s; last_sync := last_sync s |}.

Definition set_sess (v : attr (option Session)) (s : BlackboardSync) : BlackboardSync :=
  {| _sync_interval := _sync_interval s; _last_sync := _last_sync s;
     _next_sync := _next_sync s; _is_logged_in := _is_logged_in s;
     _force_sync := _force_sync s; _is_syncing := _is_syncing s;
     _is_active := _is_active s; _config := _config s;
     _cookies := _cookies s; sess := v; last_sync := last_sync s |}.

Definition set_last_sync (v : attr datetime) (s : BlackboardSync) : BlackboardSync :=
  {| _sync_interval := _sync_interval s; _last_sync := _last_sync s;
     _next_sync := _next_sync s; _is_logged_in := _is_logged_in s;
     _force_sync := _force_sync s; _is_syncing := _is_syncing s;
     _is_active := _is_active s; _config := _config s;
     _cookies := _cookies s; sess := sess s; last_sync := v |}.

Definition set_sync_interval (v : Z) (s : BlackboardSync) : BlackboardSync :=
  {| _sync_interval := v; _last_sync := _last_sync s;
     _next_sync := _next_sync s; _is_logged_in := _is_logged_in s;
     _force_sync := _force_sync s; _is_syncing := _is_syncing s;
     _is_active := _is_active s; _config := _config s;
     _cookies := _cookies s; sess := sess s; last_sync := last_sync s |}.

(** ** The world outside the instance *)

(** Calls that leave the instance, in the order they are made. *)
Inductive event :=
| EvOpenSession (cookie_jar : CookieJar)
    (* BlackboardSession(cookie_jar) *)
| EvThreadStart
    (* threading.Thread(target=self._sync_task).start() *)
| EvDownload (u_sess : option Session) (location : Path) (cutoff : option datetime)
    (* BlackboardDownload(sess, location, cutoff).download() *)
| EvLogDir (log_dir : Path)
    (* log_dir.mkdir(exist_ok=True, parents=True) returned *)
| EvLogException (log_dir log_path : Path) (e : exn)
    (* the log file log_path was opened and the exception written to it *)
| EvUncaught (e : exn)
    (* an exception left the target of a thread and ended the thread *)
| EvSleep (seconds : Z).
    (* time.sleep(seconds) *)

#[global] Instance Session_eq_dec : EqDecision Session.
Proof. solve_decision. Defined.

#[global] Instance event_eq_dec : EqDecision event.
Proof. solve_decision. Defined.

Record World := {
  self : BlackboardSync;
  trace : list event
}.

(** ** The method monad *)

Inductive Res (A : Type) :=
| Ok (a : A) (w : World)
| Raise (e : exn) (w : World).
Arguments Ok {A} a w.
Arguments Raise {A} e w.

Definition M (A : Type) : Type := World -> Res A.

#[global] Instance M_ret : MRet M := fun A a w => Ok a w.

#[global] Instance M_bind : MBind M := fun A B f m w =>
  match m w with
  | Ok a w' => f a w'
  | Raise e w' => Raise e w'
  end.

Definition get : M BlackboardSync := fun w => Ok (self w) w.

Definition modify (f : BlackboardSync -> BlackboardSync) : M unit :=
  fun w => Ok tt {| self := f (self w); trace := trace w |}.

Definition emit (ev : event) : M unit :=
  fun w => Ok tt {| self := self w; trace := trace w ++ [ev] |}.

Definition raise {A} (e : exn) : M A := fun w => Raise e w.

(** [try: body / except ...: handler / else: els].  [handler e] is [None]
    when no [except] clause matches [e]; an exception raised by the handler
    or by the [else] branch is not caught. *)
Definition try_except_else {A B} (body : M A) (handler : exn -> option (M B))
    (els : A -> M B) : M B :=
  fun w =>
    match body w with
    | Ok a w' => els a w'
    | Raise e w' =>
        match handler e with
        | Some h => h w'
        | None => Raise e w'
        end
    end.

Definition try_except {A} (body : M A) (handler : exn -> option (M A)) : M A :=
  try_except_else body handler mret.

(** The state a computation stops in, returned or raised. *)
Definition final {A} (r : Res A) : World :=
  match r with
  | Ok _ w => w
  | Raise _ w => w
  end.

(** ** Oracles of one loop tick *)

(** What [BlackboardDownload.download()] does when it is called: it returns
    the instant the job started, or raises. *)
Inductive job_result :=
| Returned (t : datetime)
| Raised (e : exn).

Record tick_env := {
  now : datetime;      (* datetime.now(timezone.utc), read by outdated *)
  job : job_result;    (* the outcome of the download job, if one is started *)
  stamp : string;      (* datetime.now() as formatted for the log file name *)
  log_mkdir : option exn;   (* what creating the log directory raises, if anything *)
  log_open : option exn     (* what opening the log file raises, if anything *)
}.

(** The local variables of [_sync_task]. *)
Record locals := {
  reload_session : bool;
  failed_attempts : Z
}.

Inductive loop_status :=
| Exited (l : locals)     (* the while condition was false *)
| Polling (l : locals).   (* still active when the schedule of ticks ran out *)

(** ** Methods of [BlackboardSync] *)

Section Scheduler.

(** [BlackboardSession(cookie_jar)]: a session, or the exception the
    constructor raises ([ValueError] for credentials that are refused). *)
Variable BlackboardSession : CookieJar -> Session + exn.

Definition open_session (cookie_jar : CookieJar) : M Session :=
  emit (EvOpenSession cookie_jar);;
  match BlackboardSession cookie_jar with
  | inl u_sess => mret u_sess
  | inr e => raise e
  end.

(** The operands of the sum are evaluated before the sum: the timedelta
    is built, and may overflow, also when the last sync time is [None]. *)
Definition _update_next_sync : M unit :=
  s ← get;
  match timedelta (_sync_interval s) with
  | None => raise OverflowError        (* timedelta(seconds=...) *)
  | Some d =>
      match last_sync_time (_config s) with
      | None => raise TypeError        (* None + timedelta *)
      | Some t =>
          match datetime_add t d with
          | Some next => modify (set_next_sync (Some next))
          | None => raise OverflowError    (* date value out of range *)
          end
      end
  end.

(** The setter of the property [last_sync_time]. *)
Definition last_sync_time_setter (last_time : option datetime) : M unit :=
  modify (fun s => set_config (set_last_sync_time last_time (_config s)) s);;
  _update_next_sync.

(** The setter of the property [sync_interval]. *)
Definition sync_interval_setter (p : Z) : M unit :=
  modify (set_sync_interval p).

Definition __init__ (cfg : SyncConfig) : Res unit :=
  (match last_sync_time cfg with
   | Some _ => _update_next_sync
   | None => mret tt
   end)
    {| self := {| _sync_interval := 60 * 30;
                  _last_sync := None;
                  _next_sync := None;
                  _is_logged_in := false;
                  _force_sync := false;
                  _is_syncing := false;
                  _is_active := false;
                  _config := cfg;
                  _cookies := Unset;
                  sess := Unset;
                  last_sync := Unset |};
       trace := [] |}.

Definition outdated (now : datetime) : M bool :=
  s ← get;
  match last_sync_time (_config s) with
  | None => mret true
  | Some _ =>
      match _next_sync s with
      | Some next => mret (bool_decide (next ≤ now))
      | None => raise TypeError      (* datetime >= None *)
      end
  end.

Definition start_sync : M unit :=
  modify (set_is_active true);;
  emit EvThreadStart.

Definition stop_sync : M unit :=
  modify (set_is_active false).

Definition auth (cookie_jar : CookieJar) : M bool :=
  modify (set_cookies (Assigned cookie_jar));;
  try_except_else (open_session cookie_jar)
    (fun e => match e with
              | ValueError => Some (mret tt)
              | _ => None
              end)
    (fun u_sess =>
       modify (set_sess (Assigned (Some u_sess)));;
       modify (set_is_logged_in true);;
       start_sync);;
  s ← get;
  mret (_is_logged_in s).

Definition log_out : M unit :=
  stop_sync;;
  modify (set_sess (Assigned None));;
  modify (set_is_logged_in false).

Definition _log_dir (s : BlackboardSync) : Path :=
  path_join (download_location (_config s)) _log_directory.

Definition _log_path (s : BlackboardSync) (stamp : string) : Path :=
  path_join (_log_dir s) ("sync_error_" +:+ stamp +:+ ".log").

(** The oracle [env] says what the two calls that touch the disk do:
    [self._log_dir.mkdir(...)] and [logging.FileHandler(self._log_path)].
    An exception of either leaves the method. *)
Definition _log_exception (env : tick_env) (e : exn) : M unit :=
  s ← get;
  match log_mkdir env with
  | Some x => raise x
  | None => emit (EvLogDir (_log_dir s))
  end;;
  match log_open env with
  | Some x => raise x
  | None => mret tt
  end;;
  emit (EvLogException (_log_dir s) (_log_path s (stamp env)) e).

Definition force_sync : M unit :=
  modify (set_force_sync true).

Definition change_download_location (new_dir : Path) (redownload : bool) : M unit :=
  s ← get;
  if decide (new_dir ≠ download_location (_config s)) then
    modify (fun s => set_config (set_download_location new_dir (_config s)) s);;
    (if redownload then last_sync_time_setter None else mret tt)
  else mret tt.

(** [self.sess], read to build the download job. *)
Definition read_sess : M (option Session) :=
  s ← get;
  match sess s with
  | Assigned v => mret v
  | Unset => raise AttributeError
  end.

Definition read_cookies : M CookieJar :=
  s ← get;
  match _cookies s with
  | Assigned v => mret v
  | Unset => raise AttributeError
  end.

(** [new_download.download()] for the job built from the session, the
    download location and the last sync time. *)
Definition download (u_sess : option Session) (location : Path)
    (cutoff : option datetime) (r : job_result) : M datetime :=
  emit (EvDownload u_sess location cutoff);;
  match r with
  | Returned t => mret t
  | Raised e => raise e
  end.

Definition set_reload_session (v : bool) (l : locals) : locals :=
  {| reload_session := v; failed_attempts := failed_attempts l |}.

Definition set_failed_attempts (v : Z) (l : locals) : locals :=
  {| reload_session := reload_session l; failed_attempts := v |}.

(** The body of the [if self.outdated or self._force_sync] branch. *)
Definition sync_now (env : tick_env) (l : locals) : M locals :=
  modify (set_is_syncing true);;
  u_sess ← read_sess;
  s ← get;
  l ← try_except
        (t ← download u_sess (path_join (download_location (_config s)) EmptyString)
               (last_sync_time (_config s)) (job env);
         modify (set_last_sync (Assigned t));;
         mret (set_failed_attempts 0 l))
        (fun e => match e with
                  | ValueError =>
                      Some (log_out;; mret (set_reload_session true l))
                  | ConnectionError =>
                      Some (_log_exception env e;;
                            mret (set_failed_attempts (failed_attempts l + 1) l))
                  | _ => None
                  end);
  (if bool_decide (_max_retries ≤ failed_attempts l) then log_out else mret tt);;
  modify (set_force_sync false);;
  modify (set_is_syncing false);;
  mret l.

(** One iteration of the body of [while self._is_active]. *)
Definition tick (env : tick_env) (l : locals) : M locals :=
  stale ← outdated (now env);
  s ← get;
  l ← (if stale || _force_sync s then sync_now env l else mret l);
  emit (EvSleep _check_sleep_time);;
  mret l.

(** The [while] loop, run against a schedule of ticks. *)
Fixpoint sync_loop (envs : list tick_env) (l : locals) : M loop_status :=
  s ← get;
  if _is_active s then
    match envs with
    | [] => mret (Polling l)
    | env :: envs' => l' ← tick env l; sync_loop envs' l'
    end
  else mret (Exited l).

(** [_sync_task] from given values of its local variables. *)
Definition _sync_task_from (l : locals) (envs : list tick_env) : M loop_status :=
  st ← sync_loop envs l;
  match st with
  | Exited l' =>
      (if reload_session l'
       then cookie_jar ← read_cookies; auth cookie_jar;; mret tt
       else mret tt);;
      mret st
  | Polling _ => mret st
  end.

Definition _sync_task (envs : list tick_env) : M loop_status :=
  _sync_task_from {| reload_session := false; failed_attempts := 0 |} envs.

(** The thread [start_sync] spawns, run to its end: [Thread.run] calls the
    target, and an exception that leaves the target ends the thread and
    nothing else; the interpreter reports it and goes on. *)
Definition Thread_run (envs : list tick_env) : M unit :=
  fun w =>
    match _sync_task envs w with
    | Ok _ w' => Ok tt w'
    | Raise e w' => Ok tt {| self := self w'; trace := trace w' ++ [EvUncaught e] |}
    end.

End Scheduler.

(** ** The folder of [content/folder.py] *)

Module Folder.

(** A remote node descriptor, as far as [Folder] reads it. *)
Record BBCourseContent := {
  id : string;
  contentHandler : option string
}.

(** [BBContentPath], a dictionary of selectors; a key may hold [None]. *)
Definition BBContentPath : Type := gmap string (option string).

(** [api_path.get(key)]: [None] for a missing key. *)
Definition api_get (api_path : BBContentPath) (key : string) : option string :=
  match api_path !! key with
  | Some v => v
  | None => None
  end.

(** The download job, as far as [Folder] uses it:
    [job.session.fetch_content_children( **api_path )]. *)
Record DownloadJob := {
  fetch_content_children : BBContentPath -> list BBCourseContent
}.

(** A child built by [cont.Content(child, api_path, job)], kept as the
    arguments of its constructor. *)
Record Content := {
  content : BBCourseContent;
  api_path : BBContentPath;
  job : DownloadJob
}.

Record Folder := { children : list Content }.

(** The test [child.contentHandler is not None]. *)
Definition eligible (child : BBCourseContent) : bool :=
  match contentHandler child with
  | Some _ => true
  | None => false
  end.

Definition __init__ (content : BBCourseContent) (api_path : BBContentPath)
    (job : DownloadJob) : Folder :=
  let course_id := api_get api_path "course_id" in
  {| children :=
       foldl (fun children child =>
                if eligible child
                then children ++
                     [ {| content := child;
                          api_path := <["content_id" := Some (id child)]>
                                        (<["course_id" := course_id]> ∅);
                          job := job |} ]
                else children)
             [] (fetch_content_children job api_path) |}.

(** Calls issued by [write], in order. *)
Inductive call :=
| Mkdir (path : Path)                        (* path.mkdir(exist_ok=True, parents=True) *)
| ChildWrite (child : Content) (path : Path). (* child.write(path, executor) *)

(** The disk, as the set of directories that exist, with the calls made
    so far. *)
Record Disk := {
  dirs : gset Path;
  calls : list call
}.

(** A path with all its parents, the root included. *)
Fixpoint ancestors (p : Path) : list Path :=
  [] :: match p with
        | [] => []
        | x :: p' => map (cons x) (ancestors p')
        end.

(** [path.mkdir(exist_ok=True, parents=True)]: the directory and its
    missing parents are created, an existing directory is no error. *)
Definition mkdir (path : Path) (d : Disk) : Disk :=
  {| dirs := dirs d ∪ list_to_set (ancestors path);
     calls := calls d ++ [Mkdir path] |}.

Section Write.

(** What a child's [write] does to the set of directories; the worker
    pool it submits to is part of this oracle. *)
Variable child_effect : Content -> Path -> gset Path -> gset Path.

Definition child_write (child : Content) (path : Path) (d : Disk) : Disk :=
  {| dirs := child_effect child path (dirs d);
     calls := calls d ++ [ChildWrite child path] |}.

Definition write (self : Folder) (path : Path) (d : Disk) : Disk :=
  let d := match children self with
           | [] => d
           | _ :: _ => mkdir path d
           end in
  foldl (fun d child => child_write child path d) d (children self).

End Write.

End Folder.

(** ** Vocabulary of the properties *)

(** The tick at time [now] starts a download job: [self.outdated or
    self._force_sync] evaluates to true. *)
Definition runs_job (now : datetime) (w : World) : Prop :=
  ∃ stale, outdated now w = Ok stale w ∧ stale || _force_sync (self w) = true.

(** The instance after [log_out]. *)
Definition logged_out (s : BlackboardSync) : BlackboardSync :=
  set_is_logged_in false (set_sess (Assigned None) (set_is_active false s)).

(** The flags after a download attempt: [_force_sync] and [_is_syncing]
    are lowered. *)
Definition attempt_done (s : BlackboardSync) : BlackboardSync :=
  set_is_syncing false (set_force_sync false s).

(** The world with one more call recorded. *)
Definition record_call (evs : list event) (s : BlackboardSync) (w : World) : World :=
  {| self := s; trace := trace w ++ evs |}.

(** The credentials the session constructor was called with. *)
Definition sessions_opened (tr : list event) : list CookieJar :=
  omap (fun ev => match ev with
                  | EvOpenSession c => Some c
                  | _ => None
                  end) tr.

(** The number of sync threads started. *)
Definition threads_started (tr : list event) : nat :=
  length (omap (fun ev => match ev with
                          | EvThreadStart => Some tt
                          | _ => None
                          end) tr).

(** The exceptions written to the failure log, with the directory they
    were written to. *)
Definition logged_exceptions (tr : list event) : list (Path * exn) :=
  omap (fun ev => match ev with
                  | EvLogException d _ e => Some (d, e)
                  | _ => None
                  end) tr.

(** The download jobs started, each with the session, the location and
    the cutoff it was built from. *)
Definition jobs_started (tr : list event)
    : list (option Session * Path * option datetime) :=
  omap (fun ev => match ev with
                  | EvDownload u p c => Some (u, p, c)
                  | _ => None
                  end) tr.

(** The job the tick builds: the current session, the download location
    and the stored last sync time as cutoff. *)
Definition job_call (u : option Session) (w : World) : event :=
  EvDownload u (download_location (_config (self w)))
    (last_sync_time (_config (self w))).

(** The property [username]: [self.sess.username].  Reading it raises
    [AttributeError] when [sess] was never assigned and when it holds
    [None]. *)
Definition username_property : M string :=
  s ← get;
  match sess s with
  | Assigned (Some u_sess) => mret (username u_sess)
  | Assigned None => raise AttributeError
  | Unset => raise AttributeError
  end.

(** The settings of an instance: the stored configuration, the instant of
    the next sync, the interval and the remembered credential. *)
Definition same_settings (s s' : BlackboardSync) : Prop :=
  _config s' = _config s ∧
  _next_sync s' = _next_sync s ∧
  _sync_interval s' = _sync_interval s ∧
  _cookies s' = _cookies s.

(** The instant [_update_next_sync] computes from a last sync time and
    an interval; [None] when the computation raises [OverflowError]. *)
Definition next_sync_of (t : datetime) (interval : Z) : option datetime :=
  d ← timedelta interval; datetime_add t d.

(** The exception the write to the failure log raises at this tick, if
    any: from creating the directory, else from opening the file. *)
Definition log_raises (env : tick_env) : option exn :=
  match log_mkdir env with
  | Some x => Some x
  | None => log_open env
  end.

(** What the log write has done when it raises. *)
Definition log_dir_events (env : tick_env) (s : BlackboardSync) : list event :=
  match log_mkdir env with
  | Some _ => []
  | None => [EvLogDir (_log_dir s)]
  end.

(** ** Sample inputs *)

Definition sample_config : SyncConfig :=
  {| download_location := ["home"; "Blackboard"]; last_sync_time := None |}.

(** A session constructor that accepts one credential and refuses the
    others. *)
Definition sample_sessions (cookie_jar : CookieJar) : Session + exn :=
  if decide (cookie_jar = "valid") then inl {| username := "student" |}
  else inr ValueError.

(** The instance right after construction. *)
Definition sample_new : World := final (__init__ sample_config).

(** The instance after a successful [auth]: logged in, loop active. *)
Definition sample_active : World :=
  final (auth sample_sessions "valid" sample_new).

(** A tick at time [t] whose download job does [r]. *)
Definition sample_tick (t : datetime) (r : job_result) : tick_env :=
  {| now := t; job := r; stamp := "2023-01-01T00_00_00_000000";
     log_mkdir := None; log_open := None |}.

(** The same tick on a disk where the log directory cannot be created. *)
Definition sample_tick_unwritable (t : datetime) (r : job_result) : tick_env :=
  {| now := t; job := r; stamp := "2023-01-01T00_00_00_000000";
     log_mkdir := Some (OtherError "PermissionError"); log_open := None |}.

Definition fresh_locals : locals :=
  {| reload_session := false; failed_attempts := 0 |}.

(** The active instance after a sync at instant 0 was stored: the next
    sync is due 1800 seconds later. *)
Definition sample_synced : World :=
  final (last_sync_time_setter (Some 0) sample_active).

(** A folder whose remote listing has one child with a content handler
    and one without. *)
Definition sample_listing : list Folder.BBCourseContent :=
  [ {| Folder.id := "_11_1"; Folder.contentHandler := Some "resource/x-bb-file" |};
    {| Folder.id := "_12_1"; Folder.contentHandler := None |} ].

Definition sample_job : Folder.DownloadJob :=
  {| Folder.fetch_content_children := fun _ => sample_listing |}.

Definition sample_api_path : Folder.BBContentPath :=
  {[ "course_id" := Some "_7_1" ]}.

Definition sample_folder_content : Folder.BBCourseContent :=
  {| Folder.id := "_10_1"; Folder.contentHandler := Some "resource/x-bb-folder" |}.

Definition empty_disk : Folder.Disk :=
  {| Folder.dirs := ∅; Folder.calls := [] |}.

(** Children that create no directory of their own. *)
Definition leaf_effect (child : Folder.Content) (path : Path) (ds : gset Path)
    : gset Path := ds.

(** An instance whose interval was 60 seconds when the sync at instant 0
    was stored and is 1800 seconds now. *)
Definition sample_retimed : World :=
  final ((sync_interval_setter 60;;
          last_sync_time_setter (Some 0);;
          sync_interval_setter 1800) sample_new).

(** ** Candidate properties *)

(** [outdated] as a function of the stored last sync time and the current
    interval: true exactly when no last sync time is stored or [now] has
    reached the last sync time plus [_sync_interval] seconds. *)
Definition outdated_by_interval (w : World) (now : datetime) : Prop :=
  outdated now w = Ok true w ↔
  (last_sync_time (_config (self w)) = None ∨
   ∃ t, last_sync_time (_config (self w)) = Some t ∧
        t + microseconds (_sync_interval (self w)) ≤ now).



(** The exception [e] raised by the job of this tick is absorbed by the
    tick, written to the failure log under the download location, and the
    loop is still active afterwards. *)
Definition absorbed_and_logged (env : tick_env) (l : locals) (w : World)
    (e : exn) : Prop :=
  ∃ l' w', tick env l w = Ok l' w' ∧
           logged_exceptions (trace w')
           = logged_exceptions (trace w) ++ [(_log_dir (self w), e)] ∧
           _is_active (self w') = true.

(** [force_sync()] followed by one tick starts one download job and leaves
    the flag [_force_sync] lowered in the state the tick stops in. *)
Definition forced_tick_clears_flag (env : tick_env) (l : locals) (w : World) : Prop :=
  let r := (force_sync;; sync_loop [env] l) w in
  length (jobs_started (trace (final r))) = S (length (jobs_started (trace w))) ∧
  _force_sync (self (final r)) = false.

(** ** Basic facts *)

Lemma outdated_pure (now : datetime) (w : World) :
  final (outdated now w) = w.
Proof.
  unfold outdated, mbind, M_bind, get.
  destruct (last_sync_time (_config (self w))); [|done].
  destruct (_next_sync (self w)); done.
Qed.

Lemma outdated_unset (now : datetime) (w : World) :
  last_sync_time (_config (self w)) = None → outdated now w = Ok true w.
Proof.
  intros H. unfold outdated, mbind, M_bind, get. by rewrite H.
Qed.

Lemma outdated_set (now t next : datetime) (w : World) :
  last_sync_time (_config (self w)) = Some t →
  _next_sync (self w) = Some next →
  outdated now w = Ok (bool_decide (next ≤ now)) w.
Proof.
  intros H1 H2. unfold outdated, mbind, M_bind, get. by rewrite H1, H2.
Qed.

(** [outdated] reads the stored last sync time and [_next_sync] only. *)
Lemma outdated_frame (now : datetime) (w w' : World) (b : bool) :
  last_sync_time (_config (self w')) = last_sync_time (_config (self w)) →
  _next_sync (self w') = _next_sync (self w) →
  outdated now w = Ok b w → outdated now w' = Ok b w'.
Proof.
  intros H1 H2. unfold outdated, mbind, M_bind, get. rewrite H1, H2.
  destruct (last_sync_time (_config (self w))).
  - destruct (_next_sync (self w)); [|done].
    unfold mret, M_ret. congruence.
  - unfold mret, M_ret. congruence.
Qed.

Lemma next_sync_of_value (t next : datetime) (p : Z) :
  next_sync_of t p = Some next → next = t + microseconds p.
Proof.
  unfold next_sync_of, timedelta, datetime_add. case_bool_decide; [|done]. cbn.
  case_bool_decide; [|done]. by intros [= <-].
Qed.

Lemma next_sync_of_in_range (t : datetime) (p : Z) :
  0 ≤ p →
  datetime_min ≤ t →
  t + microseconds p ≤ datetime_max →
  next_sync_of t p = Some (t + microseconds p).
Proof.
  intros Hp Hmin Hmax. unfold next_sync_of, timedelta, datetime_add.
  unfold microseconds, datetime_min, datetime_max in *.
  rewrite bool_decide_eq_true_2.
  - cbn. rewrite bool_decide_eq_true_2; [done | unfold microseconds; lia].
  - split.
    + assert (0 ≤ p `div` 86400) by (apply Z.div_pos; lia). lia.
    + apply Z.div_le_upper_bound; lia.
Qed.

Lemma _update_next_sync_set (t next : datetime) (w : World) :
  last_sync_time (_config (self w)) = Some t →
  next_sync_of t (_sync_interval (self w)) = Some next →
  _update_next_sync w = Ok tt (record_call [] (set_next_sync (Some next) (self w)) w).
Proof.
  intros H Hn. unfold _update_next_sync, mbind, M_bind, get, modify, record_call.
  unfold next_sync_of in Hn.
  destruct (timedelta (_sync_interval (self w))) as [d|]; [|done]. cbn in Hn.
  rewrite H, Hn. by rewrite app_nil_r.
Qed.

Lemma _update_next_sync_overflow (t : datetime) (w : World) :
  last_sync_time (_config (self w)) = Some t →
  next_sync_of t (_sync_interval (self w)) = None →
  _update_next_sync w = Raise OverflowError w.
Proof.
  intros H Hn. unfold _update_next_sync, mbind, M_bind, get, modify.
  unfold next_sync_of in Hn.
  destruct (timedelta (_sync_interval (self w))) as [d|]; [|done]. cbn in Hn.
  by rewrite H, Hn.
Qed.

(** ** The staleness predicate *)

(** [sample_retimed] has a last sync at instant 0 and an interval of 1800
    seconds, and [_next_sync] is still the instant 60 seconds stored
    before the interval was changed. *)
Example sample_retimed_fields :
  last_sync_time (_config (self sample_retimed)) = Some 0 ∧
  _sync_interval (self sample_retimed) = 1800 ∧
  _next_sync (self sample_retimed) = Some (microseconds 60).
Proof. by vm_compute. Qed.

(** There, 1700 seconds after the last sync, [outdated] is already true:
    it does not follow the last sync time plus the current interval. *)
Lemma outdated_ignores_new_interval :
  ¬ outdated_by_interval sample_retimed (0 + microseconds 1700).
Proof.
  intros [H _].
  destruct (H eq_refl) as [H1 | (t & H1 & H2)].
  - discriminate H1.
  - injection H1 as <-. vm_compute in H2. by apply H2.
Qed.

(** C2, as the code has it.  [outdated] returns true exactly when the
    last sync time is unset or the current time has reached the stored
    [_next_sync].  [_next_sync] is what the last [_update_next_sync]
    stored: the last sync time plus the [_sync_interval] seconds of that
    moment, or nothing new when that sum is not a datetime and the call
    raises [OverflowError]; assigning [sync_interval] afterwards leaves it
    as it is.  And when the last sync time is set to [T0] while the
    interval is 1800 seconds, [T0] plus 1800 seconds being a datetime,
    [outdated] is false 1700 seconds after [T0] and true 1801 seconds
    after it. *)
Theorem outdated_spec :
  (∀ (w : World) (now : datetime),
     outdated now w = Ok true w ↔
     (last_sync_time (_config (self w)) = None ∨
      ∃ next, _next_sync (self w) = Some next ∧ next ≤ now)) ∧
  (∀ (w : World) (t : datetime),
     last_sync_time (_config (self w)) = Some t →
     match next_sync_of t (_sync_interval (self w)) with
     | Some next =>
         next = t + microseconds (_sync_interval (self w)) ∧
         ∃ w', _update_next_sync w = Ok tt w' ∧
               last_sync_time (_config (self w')) = Some t ∧
               _sync_interval (self w') = _sync_interval (self w) ∧
               _next_sync (self w') = Some next
     | None => _update_next_sync w = Raise OverflowError w
     end) ∧
  (∀ (w : World) (p : Z),
     ∃ w', sync_interval_setter p w = Ok tt w' ∧
           _sync_interval (self w') = p ∧
           _next_sync (self w') = _next_sync (self w) ∧
           _config (self w') = _config (self w)) ∧
  (∀ (w : World) (T0 : datetime),
     _sync_interval (self w) = 1800 →
     datetime_min ≤ T0 →
     T0 + microseconds 1800 ≤ datetime_max →
     ∃ w', last_sync_time_setter (Some T0) w = Ok tt w' ∧
           last_sync_time (_config (self w')) = Some T0 ∧
           outdated (T0 + microseconds 1700) w' = Ok false w' ∧
           outdated (T0 + microseconds 1801) w' = Ok true w').
Proof.
  split; [|split; [|split]].
  - intros w now. split.
    + intros H. destruct (last_sync_time (_config (self w))) as [t|] eqn:Hl; [|by left].
      right. destruct (_next_sync (self w)) as [next|] eqn:Hn.
      * rewrite (outdated_set now t next w Hl Hn) in H.
        exists next. split; [done|].
        injection H as H. by apply bool_decide_eq_true in H.
      * unfold outdated, mbind, M_bind, get in H. by rewrite Hl, Hn in H.
    + intros [H | (next & Hn & Hle)]; [by apply outdated_unset|].
      destruct (last_sync_time (_config (self w))) as [t|] eqn:Hl.
      * rewrite (outdated_set now t next w Hl Hn).
        by rewrite bool_decide_eq_true_2.
      * by apply outdated_unset.
  - intros w t H.
    destruct (next_sync_of t (_sync_interval (self w))) as [next|] eqn:Hn.
    + split; [by apply next_sync_of_value|].
      eexists. split; [by apply (_update_next_sync_set t next)|]. by cbn.
    + by apply (_update_next_sync_overflow t).
  - intros w p. by eexists.
  - intros w T0 Hi Hmin Hmax. eexists. split.
    + unfold last_sync_time_setter, mbind, M_bind, modify.
      apply (_update_next_sync_set T0 (T0 + microseconds 1800)); [done|].
      cbn. rewrite Hi. apply next_sync_of_in_range; [lia | done | done].
    + cbn. split; [done|]. split.
      * erewrite outdated_set; [|done..]. cbn [_next_sync self record_call set_next_sync].
        rewrite bool_decide_eq_false_2; [done|]. unfold microseconds. lia.
      * erewrite outdated_set; [|done..].
        rewrite bool_decide_eq_true_2; [done|]. unfold microseconds. lia.
Qed.

Lemma outdated_spec_witness :
  ∃ w', last_sync_time_setter (Some 0) sample_new = Ok tt w' ∧
        last_sync_time (_config (self w')) = Some 0 ∧
        outdated (0 + microseconds 1700) w' = Ok false w' ∧
        outdated (0 + microseconds 1801) w' = Ok true w'.
Proof.
  apply (proj2 (proj2 (proj2 outdated_spec)) sample_new 0).
  - reflexivity.
  - unfold datetime_min. lia.
  - unfold datetime_max, microseconds. lia.
Defined.

(** ** Changing the download location *)

(** C9.  [change_download_location] called with the current download
    location returns without changing anything, whatever [redownload]
    is: the location, the last sync time, [_next_sync] and every other
    field stay as they were and nothing is called. *)
Theorem change_download_location_same (w : World) (redownload : bool) :
  change_download_location (download_location (_config (self w))) redownload w
  = Ok tt w.
Proof.
  unfold change_download_location, mbind, M_bind, get.
  case_decide as H; [by destruct H | done].
Qed.

(** C4.  [change_download_location] with a new location and
    [redownload=True] does not return: after storing the new location and
    unsetting the last sync time, the setter calls [_update_next_sync],
    which adds a timedelta to [None] and raises [TypeError] (or, for an
    interval no timedelta can hold, [OverflowError] from building the
    timedelta).  The stored last sync time is unset at that point and
    [_next_sync] keeps its old value. *)
Theorem change_download_location_redownload_raises (w : World) (new_dir : Path) :
  new_dir ≠ download_location (_config (self w)) →
  change_download_location new_dir true w
  = Raise (match timedelta (_sync_interval (self w)) with
           | Some _ => TypeError
           | None => OverflowError
           end)
      (record_call []
         (set_config {| download_location := new_dir; last_sync_time := None |}
            (self w)) w).
Proof.
  intros H. unfold change_download_location, mbind, M_bind, get.
  case_decide as H'; [|done].
  unfold last_sync_time_setter, _update_next_sync, mbind, M_bind, modify, get.
  cbn. unfold record_call. rewrite app_nil_r.
  by destruct (timedelta (_sync_interval (self w))).
Qed.

Lemma change_download_location_redownload_raises_witness :
  change_download_location ["mnt"; "usb"] true sample_active
  = Raise TypeError
      (record_call []
         (set_config {| download_location := ["mnt"; "usb"]; last_sync_time := None |}
            (self sample_active)) sample_active).
Proof.
  apply (change_download_location_redownload_raises sample_active ["mnt"; "usb"]).
  vm_compute. discriminate.
Defined.

(** Without [redownload] the new location is stored and the call returns. *)
Lemma change_download_location_keep (w : World) (new_dir : Path) :
  new_dir ≠ download_location (_config (self w)) →
  change_download_location new_dir false w
  = Ok tt (record_call []
             (set_config (set_download_location new_dir (_config (self w))) (self w)) w).
Proof.
  intros H. unfold change_download_location, mbind, M_bind, get.
  case_decide as H'; [|done].
  unfold record_call. by rewrite app_nil_r.
Qed.

(** ** Authentication *)

Section Auth.

Variable BlackboardSession : CookieJar -> Session + exn.

Lemma auth_accepted (c : CookieJar) (u : Session) (w : World) :
  BlackboardSession c = inl u →
  auth BlackboardSession c w
  = Ok true
      (record_call [EvOpenSession c; EvThreadStart]
         (set_is_active true
            (set_is_logged_in true
               (set_sess (Assigned (Some u))
                  (set_cookies (Assigned c) (self w))))) w).
Proof.
  intros H.
  unfold auth, try_except_else, open_session, start_sync, mbind, M_bind,
    modify, emit, get.
  cbn. rewrite H. cbn. unfold record_call. by rewrite <- app_assoc.
Qed.

Lemma auth_refused (c : CookieJar) (w : World) :
  BlackboardSession c = inr ValueError →
  auth BlackboardSession c w
  = Ok (_is_logged_in (self w))
      (record_call [EvOpenSession c] (set_cookies (Assigned c) (self w)) w).
Proof.
  intros H.
  unfold auth, try_except_else, open_session, mbind, M_bind, modify, emit, get.
  cbn. by rewrite H.
Qed.

Lemma auth_raises (c : CookieJar) (e : exn) (w : World) :
  BlackboardSession c = inr e → e ≠ ValueError →
  auth BlackboardSession c w
  = Raise e
      (record_call [EvOpenSession c] (set_cookies (Assigned c) (self w)) w).
Proof.
  intros H He.
  unfold auth, try_except_else, open_session, mbind, M_bind, modify, emit, get.
  cbn. rewrite H. cbn. by destruct e.
Qed.

(** The three outcomes of [auth], by what the session constructor does. *)
Lemma auth_cases (c : CookieJar) (w : World) :
  (∃ u, BlackboardSession c = inl u) ∨
  BlackboardSession c = inr ValueError ∨
  (∃ e, BlackboardSession c = inr e ∧ e ≠ ValueError).
Proof.
  destruct (BlackboardSession c) as [u|e]; [left; by exists u|].
  right. destruct (decide (e = ValueError)) as [->|He]; [by left|].
  right. by exists e.
Qed.

End Auth.

(** C10.  [auth] stores the cookie jar it is given before it calls the
    session constructor, so the jar is the remembered credential in the
    state [auth] stops in, whether the constructor accepts it, refuses it
    or raises; the value returned is the flag [_is_logged_in] of the final
    state; and when the credential is refused while a user is logged in,
    [auth] returns true, keeps the session and every other field, and has
    replaced the remembered credential. *)
Theorem auth_remembers_credential
    (BlackboardSession : CookieJar -> Session + exn) (c : CookieJar) (w : World) :
  _cookies (self (final (auth BlackboardSession c w))) = Assigned c ∧
  (∀ b w', auth BlackboardSession c w = Ok b w' → b = _is_logged_in (self w')) ∧
  (BlackboardSession c = inr ValueError →
   _is_logged_in (self w) = true →
   auth BlackboardSession c w
   = Ok true (record_call [EvOpenSession c] (set_cookies (Assigned c) (self w)) w) ∧
   sess (self (final (auth BlackboardSession c w))) = sess (self w)).
Proof.
  destruct (auth_cases BlackboardSession c w) as [[u H] | [H | (e & H & He)]].
  - rewrite (auth_accepted _ c u w H). split; [done|]. split.
    + intros b w' [= <- <-]. done.
    + intros H'. congruence.
  - rewrite (auth_refused _ c w H). split; [done|]. split.
    + intros b w' [= <- <-]. done.
    + intros _ Hl. by rewrite Hl.
  - rewrite (auth_raises _ c e w H He). split; [done|]. split.
    + intros b w' [=].
    + intros H'. congruence.
Qed.

Lemma auth_remembers_credential_witness :
  auth sample_sessions "expired" sample_active
  = Ok true (record_call [EvOpenSession "expired"]
               (set_cookies (Assigned "expired") (self sample_active)) sample_active) ∧
  sess (self (final (auth sample_sessions "expired" sample_active)))
  = sess (self sample_active).
Proof.
  apply (proj2 (proj2 (auth_remembers_credential sample_sessions "expired" sample_active)));
    reflexivity.
Defined.

(** ** One download attempt *)

Lemma path_join_empty (p : Path) : path_join p EmptyString = p.
Proof. unfold path_join. by case_decide. Qed.

Lemma logged_out_idem (s : BlackboardSync) : logged_out (logged_out s) = logged_out s.
Proof. done. Qed.

Lemma log_out_run (w : World) :
  log_out w = Ok tt (record_call [] (logged_out (self w)) w).
Proof.
  unfold log_out, stop_sync, mbind, M_bind, modify, record_call. cbn.
  by rewrite app_nil_r.
Qed.

Ltac unfold_sync_now :=
  unfold sync_now, try_except, try_except_else, download, read_sess, log_out,
    stop_sync, _log_exception, mbind, M_bind, mret, M_ret, modify, emit, get,
    raise, record_call, job_call, attempt_done.

Lemma sync_now_returned (env : tick_env) (l : locals) (w : World)
    (u : option Session) (t : datetime) :
  sess (self w) = Assigned u →
  job env = Returned t →
  sync_now env l w
  = Ok (set_failed_attempts 0 l)
      (record_call [job_call u w]
         (attempt_done (set_last_sync (Assigned t) (set_is_syncing true (self w)))) w).
Proof.
  intros Hs Hj. unfold_sync_now. cbn. rewrite Hs, Hj, path_join_empty. done.
Qed.

Lemma sync_now_session_expired (env : tick_env) (l : locals) (w : World)
    (u : option Session) :
  sess (self w) = Assigned u →
  job env = Raised ValueError →
  sync_now env l w
  = Ok (set_reload_session true l)
      (record_call [job_call u w]
         (attempt_done (logged_out (set_is_syncing true (self w)))) w).
Proof.
  intros Hs Hj. unfold_sync_now. cbn. rewrite Hs, Hj, path_join_empty. cbn.
  by case_bool_decide.
Qed.

Lemma log_raises_None (env : tick_env) :
  log_raises env = None → log_mkdir env = None ∧ log_open env = None.
Proof. unfold log_raises. by destruct (log_mkdir env). Qed.

Lemma sync_now_connection_error (env : tick_env) (l : locals) (w : World)
    (u : option Session) :
  sess (self w) = Assigned u →
  job env = Raised ConnectionError →
  log_raises env = None →
  sync_now env l w
  = Ok (set_failed_attempts (failed_attempts l + 1) l)
      (record_call
         [job_call u w;
          EvLogDir (_log_dir (self w));
          EvLogException (_log_dir (self w)) (_log_path (self w) (stamp env))
            ConnectionError]
         (attempt_done
            (if bool_decide (_max_retries ≤ failed_attempts l + 1)
             then logged_out (set_is_syncing true (self w))
             else set_is_syncing true (self w))) w).
Proof.
  intros Hs Hj [Hm Ho]%log_raises_None. unfold_sync_now. cbn.
  rewrite Hs, Hj, Hm, Ho, path_join_empty. cbn.
  case_bool_decide; cbn; by rewrite <- !app_assoc.
Qed.

(** The log write raises inside the [except] clause: the exception leaves
    [sync_now] before the counter is incremented, the retry limit tested
    and the flags lowered. *)
Lemma sync_now_log_raises (env : tick_env) (l : locals) (w : World)
    (u : option Session) (x : exn) :
  sess (self w) = Assigned u →
  job env = Raised ConnectionError →
  log_raises env = Some x →
  sync_now env l w
  = Raise x (record_call (job_call u w :: log_dir_events env (self w))
               (set_is_syncing true (self w)) w).
Proof.
  intros Hs Hj Hx. unfold_sync_now. unfold log_raises, log_dir_events in *. cbn.
  rewrite Hs, Hj, path_join_empty. cbn.
  destruct (log_mkdir env) as [y|]; cbn.
  - by injection Hx as ->.
  - rewrite Hx. cbn. by rewrite <- app_assoc.
Qed.

Lemma sync_now_uncaught (env : tick_env) (l : locals) (w : World)
    (u : option Session) (e : exn) :
  sess (self w) = Assigned u →
  job env = Raised e →
  e ≠ ValueError → e ≠ ConnectionError →
  sync_now env l w
  = Raise e (record_call [job_call u w] (set_is_syncing true (self w)) w).
Proof.
  intros Hs Hj H1 H2. unfold_sync_now. cbn. rewrite Hs, Hj, path_join_empty. cbn.
  by destruct e.
Qed.

Lemma sync_now_no_session (env : tick_env) (l : locals) (w : World) :
  sess (self w) = Unset →
  sync_now env l w = Raise AttributeError (record_call [] (set_is_syncing true (self w)) w).
Proof.
  intros Hs. unfold_sync_now. cbn. rewrite Hs. by rewrite app_nil_r.
Qed.

(** ** One tick *)

Lemma tick_idle (env : tick_env) (l : locals) (w : World) :
  outdated (now env) w = Ok false w →
  _force_sync (self w) = false →
  tick env l w = Ok l (record_call [EvSleep _check_sleep_time] (self w) w).
Proof.
  intros Ho Hf. unfold tick, mbind, M_bind at 1. rewrite Ho.
  unfold mbind, M_bind, get. by rewrite Hf.
Qed.

Lemma tick_runs (env : tick_env) (l : locals) (w : World) :
  runs_job (now env) w →
  tick env l w
  = match sync_now env l w with
    | Ok l' w' => Ok l' (record_call [EvSleep _check_sleep_time] (self w') w')
    | Raise e w' => Raise e w'
    end.
Proof.
  intros (stale & Ho & Hb). unfold tick, mbind, M_bind at 1. rewrite Ho.
  unfold mbind, M_bind, get. rewrite Hb.
  by destruct (sync_now env l w).
Qed.

(** A tick that raises the flag or finds the data outdated runs the job:
    both disjuncts of the [or]. *)
Lemma runs_job_forced (now : datetime) (w : World) (stale : bool) :
  outdated now w = Ok stale w → _force_sync (self w) = true → runs_job now w.
Proof. intros Ho Hf. exists stale. split; [done|]. rewrite Hf. by destruct stale. Qed.

Lemma runs_job_outdated (now : datetime) (w : World) :
  outdated now w = Ok true w → runs_job now w.
Proof. intros Ho. by exists true. Qed.

Lemma tick_returned (env : tick_env) (l : locals) (w : World)
    (u : option Session) (t : datetime) :
  runs_job (now env) w →
  sess (self w) = Assigned u →
  job env = Returned t →
  tick env l w
  = Ok (set_failed_attempts 0 l)
      (record_call [job_call u w; EvSleep _check_sleep_time]
         (attempt_done (set_last_sync (Assigned t) (set_is_syncing true (self w)))) w).
Proof.
  intros Hr Hs Hj. rewrite (tick_runs _ _ _ Hr), (sync_now_returned _ _ _ u t Hs Hj).
  unfold record_call. cbn. by rewrite <- app_assoc.
Qed.

Lemma tick_session_expired (env : tick_env) (l : locals) (w : World)
    (u : option Session) :
  runs_job (now env) w →
  sess (self w) = Assigned u →
  job env = Raised ValueError →
  tick env l w
  = Ok (set_reload_session true l)
      (record_call [job_call u w; EvSleep _check_sleep_time]
         (attempt_done (logged_out (set_is_syncing true (self w)))) w).
Proof.
  intros Hr Hs Hj. rewrite (tick_runs _ _ _ Hr), (sync_now_session_expired _ _ _ u Hs Hj).
  unfold record_call. cbn. by rewrite <- app_assoc.
Qed.

Lemma tick_connection_error (env : tick_env) (l : locals) (w : World)
    (u : option Session) :
  runs_job (now env) w →
  sess (self w) = Assigned u →
  job env = Raised ConnectionError →
  log_raises env = None →
  tick env l w
  = Ok (set_failed_attempts (failed_attempts l + 1) l)
      (record_call
         [job_call u w;
          EvLogDir (_log_dir (self w));
          EvLogException (_log_dir (self w)) (_log_path (self w) (stamp env))
            ConnectionError;
          EvSleep _check_sleep_time]
         (attempt_done
            (if bool_decide (_max_retries ≤ failed_attempts l + 1)
             then logged_out (set_is_syncing true (self w))
             else set_is_syncing true (self w))) w).
Proof.
  intros Hr Hs Hj Hlog.
  rewrite (tick_runs _ _ _ Hr), (sync_now_connection_error _ _ _ u Hs Hj Hlog).
  unfold record_call. cbn. by rewrite <- app_assoc.
Qed.

Lemma tick_log_raises (env : tick_env) (l : locals) (w : World)
    (u : option Session) (x : exn) :
  runs_job (now env) w →
  sess (self w) = Assigned u →
  job env = Raised ConnectionError →
  log_raises env = Some x →
  tick env l w
  = Raise x (record_call (job_call u w :: log_dir_events env (self w))
               (set_is_syncing true (self w)) w).
Proof.
  intros Hr Hs Hj Hlog.
  by rewrite (tick_runs _ _ _ Hr), (sync_now_log_raises _ _ _ u x Hs Hj Hlog).
Qed.

Lemma tick_uncaught (env : tick_env) (l : locals) (w : World)
    (u : option Session) (e : exn) :
  runs_job (now env) w →
  sess (self w) = Assigned u →
  job env = Raised e →
  e ≠ ValueError → e ≠ ConnectionError →
  tick env l w
  = Raise e (record_call [job_call u w] (set_is_syncing true (self w)) w).
Proof.
  intros Hr Hs Hj H1 H2.
  by rewrite (tick_runs _ _ _ Hr), (sync_now_uncaught _ _ _ u e Hs Hj H1 H2).
Qed.

(** ** The loop *)

Lemma sync_loop_inactive (envs : list tick_env) (l : locals) (w : World) :
  _is_active (self w) = false → sync_loop envs l w = Ok (Exited l) w.
Proof.
  intros H. destruct envs; unfold sync_loop, mbind, M_bind, get; by rewrite H.
Qed.

Lemma sync_loop_end (l : locals) (w : World) :
  _is_active (self w) = true → sync_loop [] l w = Ok (Polling l) w.
Proof.
  intros H. unfold sync_loop, mbind, M_bind, get. by rewrite H.
Qed.

Lemma sync_loop_step (env : tick_env) (envs : list tick_env) (l : locals) (w : World) :
  _is_active (self w) = true →
  sync_loop (env :: envs) l w
  = match tick env l w with
    | Ok l' w' => sync_loop envs l' w'
    | Raise e w' => Raise e w'
    end.
Proof.
  intros H. cbn [sync_loop]. unfold mbind, M_bind, get. by rewrite H.
Qed.

(** ** A successful job *)

(** C1.  What a tick does when its download job returns the instant [t]
    it started at: the returned instant is assigned to the attribute
    [last_sync], which is not the property [last_sync_time], so the stored
    last sync time and [_next_sync] keep the values they had before the
    job; the failure counter is set to 0. *)
Theorem sync_success_leaves_last_sync_time (env : tick_env) (l : locals)
    (w : World) (u : option Session) (t : datetime) :
  runs_job (now env) w →
  sess (self w) = Assigned u →
  job env = Returned t →
  ∃ l' w', tick env l w = Ok l' w' ∧
           failed_attempts l' = 0 ∧
           last_sync (self w') = Assigned t ∧
           last_sync_time (_config (self w')) = last_sync_time (_config (self w)) ∧
           _next_sync (self w') = _next_sync (self w).
Proof.
  intros Hr Hs Hj. do 2 eexists. split; [by apply (tick_returned _ _ _ u t)|].
  done.
Qed.

Lemma sync_success_leaves_last_sync_time_witness :
  ∃ l' w', tick (sample_tick 1000000 (Returned 1000000)) fresh_locals sample_active
           = Ok l' w' ∧
           failed_attempts l' = 0 ∧
           last_sync (self w') = Assigned 1000000 ∧
           last_sync_time (_config (self w')) = None ∧
           _next_sync (self w') = None.
Proof.
  apply (sync_success_leaves_last_sync_time
           (sample_tick 1000000 (Returned 1000000)) fresh_locals sample_active
           (Some {| username := "student" |}) 1000000).
  - exists true. split; reflexivity.
  - reflexivity.
  - reflexivity.
Defined.

(** ** Connectivity failures *)




(** In that run all three jobs were started, and the loop ended by the
    exception of the log write. *)
Example log_failure_run :
  ∃ w', sync_loop
          [sample_tick 10 (Raised ConnectionError);
           sample_tick 20 (Raised ConnectionError);
           sample_tick_unwritable 30 (Raised ConnectionError)]
          fresh_locals sample_active
        = Raise (OtherError "PermissionError") w' ∧
        length (jobs_started (trace w')) = 3%nat ∧
        _is_logged_in (self w') = true.
Proof. eexists. split; [vm_compute; reflexivity|]. by vm_compute. Qed.



(** ** Session expiry *)

Lemma sessions_opened_app (tr1 tr2 : list event) :
  sessions_opened (tr1 ++ tr2) = sessions_opened tr1 ++ sessions_opened tr2.
Proof. apply omap_app. Qed.

Lemma threads_started_app (tr1 tr2 : list event) :
  threads_started (tr1 ++ tr2) = (threads_started tr1 + threads_started tr2)%nat.
Proof. unfold threads_started. by rewrite omap_app, length_app. Qed.

Section Reload.

Variable BlackboardSession : CookieJar -> Session + exn.

(** The code after the loop, once the loop has exited with
    [reload_session] raised. *)
Lemma _sync_task_from_reload (l l' : locals) (envs : list tick_env)
    (w w1 : World) (c : CookieJar) :
  sync_loop envs l w = Ok (Exited l') w1 →
  reload_session l' = true →
  _cookies (self w1) = Assigned c →
  _sync_task_from BlackboardSession l envs w
  = match auth BlackboardSession c w1 with
    | Ok _ w2 => Ok (Exited l') w2
    | Raise e w2 => Raise e w2
    end.
Proof.
  intros Hloop Hr Hc. unfold _sync_task_from, mbind, M_bind at 1. rewrite Hloop.
  rewrite Hr. unfold read_cookies, mbind, M_bind, get. rewrite Hc.
  unfold mret, M_ret. by destruct (auth BlackboardSession c w1).
Qed.

Lemma _sync_task_from_no_reload (l l' : locals) (envs : list tick_env)
    (w w1 : World) :
  sync_loop envs l w = Ok (Exited l') w1 →
  reload_session l' = false →
  _sync_task_from BlackboardSession l envs w = Ok (Exited l') w1.
Proof.
  intros Hloop Hr. unfold _sync_task_from, mbind, M_bind at 1. rewrite Hloop.
  by rewrite Hr.
Qed.

End Reload.

(** C6.  A tick whose download job raises [ValueError] logs out: the
    session is cleared, [_is_logged_in] and [_is_active] are false, and the
    loop exits at its next test without running the rest of the schedule.
    After the loop the session constructor is called exactly once more,
    with the credential remembered by the last [auth].  When it returns a
    session the user is logged in again with that session and one new sync
    thread is started; when it raises, the user stays logged out with no
    session and no thread is started. *)
Theorem session_expiry_reauthenticates
    (BlackboardSession : CookieJar -> Session + exn)
    (env : tick_env) (rest : list tick_env) (l : locals) (w : World)
    (u : option Session) (c : CookieJar) :
  _is_active (self w) = true →
  sess (self w) = Assigned u →
  _cookies (self w) = Assigned c →
  runs_job (now env) w →
  job env = Raised ValueError →
  let r := _sync_task_from BlackboardSession l (env :: rest) w in
  (∃ w1, tick env l w = Ok (set_reload_session true l) w1 ∧
         sess (self w1) = Assigned None ∧
         _is_logged_in (self w1) = false ∧
         _is_active (self w1) = false ∧
         sync_loop (env :: rest) l w = Ok (Exited (set_reload_session true l)) w1) ∧
  sessions_opened (trace (final r)) = sessions_opened (trace w) ++ [c] ∧
  match BlackboardSession c with
  | inl u' =>
      (∃ w', r = Ok (Exited (set_reload_session true l)) w') ∧
      _is_logged_in (self (final r)) = true ∧
      sess (self (final r)) = Assigned (Some u') ∧
      _is_active (self (final r)) = true ∧
      threads_started (trace (final r)) = S (threads_started (trace w))
  | inr e =>
      _is_logged_in (self (final r)) = false ∧
      sess (self (final r)) = Assigned None ∧
      _is_active (self (final r)) = false ∧
      threads_started (trace (final r)) = threads_started (trace w)
  end.
Proof.
  intros Ha Hs Hc Hr Hj r.
  pose proof (tick_session_expired env l w u Hr Hs Hj) as Ht.
  set (w1 := record_call [job_call u w; EvSleep _check_sleep_time]
               (attempt_done (logged_out (set_is_syncing true (self w)))) w) in *.
  assert (Hloop : sync_loop (env :: rest) l w
                  = Ok (Exited (set_reload_session true l)) w1).
  { rewrite (sync_loop_step _ _ _ _ Ha), Ht. by apply sync_loop_inactive. }
  assert (Hr1 : r = match auth BlackboardSession c w1 with
                    | Ok _ w2 => Ok (Exited (set_reload_session true l)) w2
                    | Raise e w2 => Raise e w2
                    end).
  { by apply (_sync_task_from_reload BlackboardSession l _ _ w w1 c). }
  split; [by exists w1|].
  destruct (BlackboardSession c) as [u'|e] eqn:Hb.
  - rewrite (auth_accepted _ c u' w1 Hb) in Hr1. rewrite Hr1. cbn.
    split; [|split; [by eexists|]].
    + rewrite !sessions_opened_app. cbn. by rewrite app_nil_r.
    + repeat split. unfold threads_started. rewrite !omap_app, !length_app. cbn. lia.
  - destruct (decide (e = ValueError)) as [->|He].
    + rewrite (auth_refused _ c w1 Hb) in Hr1. rewrite Hr1. cbn.
      split.
      * rewrite !sessions_opened_app. cbn. by rewrite app_nil_r.
      * repeat split. unfold threads_started. rewrite !omap_app, !length_app. cbn. lia.
    + rewrite (auth_raises _ c e w1 Hb He) in Hr1. rewrite Hr1. cbn.
      split.
      * rewrite !sessions_opened_app. cbn. by rewrite app_nil_r.
      * repeat split. unfold threads_started. rewrite !omap_app, !length_app. cbn. lia.
Qed.

Lemma session_expiry_reauthenticates_witness :
  let r := _sync_task_from sample_sessions fresh_locals
             [sample_tick 10 (Raised ValueError); sample_tick 20 (Returned 20)]
             sample_active in
  sessions_opened (trace (final r)) = sessions_opened (trace sample_active) ++ ["valid"] ∧
  _is_logged_in (self (final r)) = true ∧
  threads_started (trace (final r)) = S (threads_started (trace sample_active)).
Proof.
  destruct (session_expiry_reauthenticates sample_sessions
              (sample_tick 10 (Raised ValueError)) [sample_tick 20 (Returned 20)]
              fresh_locals sample_active (Some {| username := "student" |}) "valid")
    as (_ & H1 & H2); try reflexivity.
  - exists true. split; reflexivity.
  - cbn in H2. destruct H2 as (_ & H2 & _ & _ & H3).
    split; [exact H1|]. split; [exact H2 | exact H3].
Defined.

(** ** Exceptions raised by the job *)

Lemma logged_exceptions_app (tr1 tr2 : list event) :
  logged_exceptions (tr1 ++ tr2) = logged_exceptions tr1 ++ logged_exceptions tr2.
Proof. apply omap_app. Qed.

Lemma jobs_started_app (tr1 tr2 : list event) :
  jobs_started (tr1 ++ tr2) = jobs_started tr1 ++ jobs_started tr2.
Proof. apply omap_app. Qed.

(** An exception that is neither a [ValueError] nor a connection error is
    not absorbed: the tick raises it, and nothing is written to the
    failure log. *)
Lemma uncaught_exception_not_absorbed :
  ¬ absorbed_and_logged (sample_tick 10 (Raised (OtherError "OSError")))
      fresh_locals sample_active (OtherError "OSError").
Proof.
  intros (l' & w' & H & _). vm_compute in H. discriminate H.
Qed.

(** C7, as the code has it.  For a tick of an active loop whose download
    job raises [e]:
    - a connection error is written to the failure log, in the directory
      [log] under the download location, and absorbed, provided the log
      directory and the log file can be written; the loop goes on to its
      next test, and the user stays logged in with the same session
      while the count of failures is below the retry limit and is logged
      out, the session cleared and the loop deactivated, by the failure
      that reaches it;
    - when the write to the failure log raises, that exception is not
      caught: the tick and the loop raise it, nothing is recorded and the
      user stays logged in;
    - a [ValueError] is absorbed, nothing is written to the failure log,
      and the loop goes on to its next test logged out, with the session
      cleared and the loop deactivated;
    - any other exception is not caught: the tick and the loop raise it,
      and nothing is written to the failure log.
    No failure exits the process: whatever leaves the loop ends the sync
    thread only, which returns to the interpreter with the instance in
    the state the task stopped in. *)
Theorem job_exception_handling
    (BlackboardSession : CookieJar -> Session + exn)
    (env : tick_env) (rest : list tick_env)
    (l : locals) (w : World) (u : option Session) (e : exn) :
  _is_active (self w) = true →
  sess (self w) = Assigned u →
  runs_job (now env) w →
  job env = Raised e →
  match e with
  | ConnectionError =>
      match log_raises env with
      | None =>
          ∃ l' w', tick env l w = Ok l' w' ∧
                   sync_loop (env :: rest) l w = sync_loop rest l' w' ∧
                   logged_exceptions (trace w')
                   = logged_exceptions (trace w) ++
                     [(download_location (_config (self w)) ++ ["log"],
                       ConnectionError)] ∧
                   if bool_decide (failed_attempts l + 1 < _max_retries)
                   then _is_active (self w') = true ∧
                        _is_logged_in (self w') = _is_logged_in (self w) ∧
                        sess (self w') = Assigned u
                   else _is_active (self w') = false ∧
                        _is_logged_in (self w') = false ∧
                        sess (self w') = Assigned None
      | Some x =>
          ∃ w', tick env l w = Raise x w' ∧
                sync_loop (env :: rest) l w = Raise x w' ∧
                logged_exceptions (trace w') = logged_exceptions (trace w) ∧
                _is_logged_in (self w') = _is_logged_in (self w) ∧
                sess (self w') = Assigned u
      end
  | ValueError =>
      ∃ l' w', tick env l w = Ok l' w' ∧
               sync_loop (env :: rest) l w = sync_loop rest l' w' ∧
               logged_exceptions (trace w') = logged_exceptions (trace w) ∧
               _is_active (self w') = false ∧
               _is_logged_in (self w') = false ∧
               sess (self w') = Assigned None
  | _ =>
      ∃ w', tick env l w = Raise e w' ∧
            sync_loop (env :: rest) l w = Raise e w' ∧
            logged_exceptions (trace w') = logged_exceptions (trace w)
  end ∧
  ∀ (envs : list tick_env) (w0 : World),
    ∃ w1, Thread_run BlackboardSession envs w0 = Ok tt w1 ∧
          self w1 = self (final (_sync_task BlackboardSession envs w0)).
Proof.
  intros Ha Hs Hr Hj. split.
  2: { intros envs w0. unfold Thread_run.
       destruct (_sync_task BlackboardSession envs w0); by eexists. }
  assert (Hother : e ≠ ValueError → e ≠ ConnectionError →
            ∃ w', tick env l w = Raise e w' ∧
                  sync_loop (env :: rest) l w = Raise e w' ∧
                  logged_exceptions (trace w') = logged_exceptions (trace w)).
  { intros H1 H2. eexists. split; [by apply (tick_uncaught _ _ _ u e)|]. split.
    - by rewrite (sync_loop_step _ _ _ _ Ha), (tick_uncaught _ _ _ u e).
    - cbn. rewrite logged_exceptions_app. cbn. by rewrite app_nil_r. }
  destruct e; try (by apply Hother).
  - do 2 eexists. split; [by apply (tick_session_expired _ _ _ u)|].
    split; [by rewrite (sync_loop_step _ _ _ _ Ha), (tick_session_expired _ _ _ u)|].
    split; [|done].
    cbn. rewrite logged_exceptions_app. cbn. by rewrite app_nil_r.
  - destruct (log_raises env) as [x|] eqn:Hlog.
    + eexists. split; [by apply (tick_log_raises _ _ _ u x)|].
      split; [by rewrite (sync_loop_step _ _ _ _ Ha), (tick_log_raises _ _ _ u x)|].
      split; [|done].
      cbn. rewrite logged_exceptions_app. unfold log_dir_events.
      destruct (log_mkdir env); cbn; by rewrite app_nil_r.
    + do 2 eexists. split; [by apply (tick_connection_error _ _ _ u)|].
      split; [by rewrite (sync_loop_step _ _ _ _ Ha), (tick_connection_error _ _ _ u)|].
      split.
      * cbn. rewrite logged_exceptions_app. by cbn.
      * cbn. case_bool_decide; case_bool_decide; try lia; cbn; done.
Qed.

Lemma job_exception_handling_witness :
  ∃ l' w', tick (sample_tick 10 (Raised ConnectionError)) fresh_locals sample_active
           = Ok l' w' ∧
           logged_exceptions (trace w')
           = logged_exceptions (trace sample_active) ++
             [(["home"; "Blackboard"; "log"], ConnectionError)] ∧
           _is_active (self w') = true.
Proof.
  destruct (job_exception_handling sample_sessions
              (sample_tick 10 (Raised ConnectionError)) []
              fresh_locals sample_active (Some {| username := "student" |})
              ConnectionError) as [(l' & w' & H1 & _ & H2 & H3 & _) _];
    try reflexivity.
  - exists true. split; reflexivity.
  - exists l', w'. split; [exact H1|]. split; [exact H2 | exact H3].
Defined.

(** ** Forced sync *)

Lemma force_sync_run (w : World) :
  force_sync w = Ok tt (record_call [] (set_force_sync true (self w)) w).
Proof. unfold force_sync, modify, record_call. by rewrite app_nil_r. Qed.

(** After [force_sync()], the tick runs the job whatever [outdated] says. *)
Lemma runs_job_after_force_sync (now : datetime) (w : World) (stale : bool) :
  outdated now w = Ok stale w →
  runs_job now (record_call [] (set_force_sync true (self w)) w).
Proof.
  intros Ho. apply (runs_job_forced _ _ stale); [|done].
  by apply (outdated_frame _ w).
Qed.

(** The data of [sample_synced] is not outdated at time 10. *)
Example sample_synced_not_outdated :
  outdated 10 sample_synced = Ok false sample_synced.
Proof. reflexivity. Qed.

(** There, the forced tick starts the job, the job raises an exception the
    loop does not catch, and the flag is still raised afterwards. *)
Lemma forced_tick_keeps_flag_on_uncaught :
  ¬ forced_tick_clears_flag (sample_tick 10 (Raised (OtherError "OSError")))
      fresh_locals sample_synced.
Proof.
  intros [_ H]. vm_compute in H. discriminate H.
Qed.

(** C8, as the code has it.  In an active loop whose session attribute is
    assigned and whose staleness test evaluates, [force_sync()] followed
    by one tick starts exactly one download job, also when [outdated] is
    false.  The flag [_force_sync] is false afterwards when the job
    returns, raises [ValueError], or raises a connection error that is
    written to the failure log; when the job raises any other exception,
    or the write to the failure log raises, the loop raises that
    exception and the flag is still true. *)
Theorem force_sync_runs_job (env : tick_env) (l : locals) (w : World)
    (u : option Session) (stale : bool) :
  _is_active (self w) = true →
  sess (self w) = Assigned u →
  outdated (now env) w = Ok stale w →
  let r := (force_sync;; sync_loop [env] l) w in
  let cleared := (∃ st w', r = Ok st w') ∧ _force_sync (self (final r)) = false in
  let kept := fun x => r = Raise x (final r) ∧ _force_sync (self (final r)) = true in
  jobs_started (trace (final r))
  = jobs_started (trace w) ++
    [(u, download_location (_config (self w)), last_sync_time (_config (self w)))] ∧
  match job env with
  | Returned _ => cleared
  | Raised ValueError => cleared
  | Raised ConnectionError =>
      match log_raises env with
      | None => cleared
      | Some x => kept x
      end
  | Raised e => kept e
  end.
Proof.
  intros Ha Hs Ho r cleared kept.
  pose proof (runs_job_after_force_sync _ _ _ Ho) as Hr.
  set (wf := record_call [] (set_force_sync true (self w)) w) in *.
  assert (Hrf : r = match tick env l wf with
                    | Ok l' w' => sync_loop [] l' w'
                    | Raise e w' => Raise e w'
                    end).
  { unfold r, mbind, M_bind at 1. rewrite force_sync_run.
    by rewrite sync_loop_step. }
  assert (Hsf : sess (self wf) = Assigned u) by done.
  assert (Hend : ∀ l' w', final (sync_loop [] l' w') = w').
  { intros l' w'. unfold sync_loop, mbind, M_bind, get.
    by destruct (_is_active (self w')). }
  assert (Hok : ∀ l' w', ∃ st w'', sync_loop [] l' w' = Ok st w'').
  { intros l' w'. unfold sync_loop, mbind, M_bind, get.
    destruct (_is_active (self w')); by do 2 eexists. }
  assert (Huncaught : ∀ e, job env = Raised e → e ≠ ValueError → e ≠ ConnectionError →
            jobs_started (trace (final r))
            = jobs_started (trace w) ++
              [(u, download_location (_config (self w)),
                last_sync_time (_config (self w)))] ∧
            kept e).
  { intros e Hj H1 H2. unfold kept.
    rewrite Hrf, (tick_uncaught _ _ _ u e Hr Hsf Hj H1 H2). cbn.
    split; [|done]. rewrite app_nil_r, jobs_started_app. by cbn. }
  unfold cleared, kept in *.
  destruct (job env) as [t|e] eqn:Hj.
  - rewrite Hrf, (tick_returned _ _ _ u t Hr Hsf Hj). rewrite Hend. cbn.
    split; [|split; [apply Hok | done]].
    rewrite app_nil_r, jobs_started_app. by cbn.
  - destruct e; try (by apply Huncaught).
    + rewrite Hrf, (tick_session_expired _ _ _ u Hr Hsf Hj). rewrite Hend. cbn.
      split; [|split; [apply Hok | done]].
      rewrite app_nil_r, jobs_started_app. by cbn.
    + destruct (log_raises env) as [x|] eqn:Hlog.
      * rewrite Hrf, (tick_log_raises _ _ _ u x Hr Hsf Hj Hlog). cbn.
        split; [|done]. rewrite app_nil_r, jobs_started_app.
        unfold log_dir_events. destruct (log_mkdir env); by cbn.
      * rewrite Hrf, (tick_connection_error _ _ _ u Hr Hsf Hj Hlog). rewrite Hend. cbn.
        split; [|split; [apply Hok |]].
        -- rewrite app_nil_r, jobs_started_app. by cbn.
        -- done.
Qed.

Lemma force_sync_runs_job_witness :
  let r := (force_sync;; sync_loop [sample_tick 10 (Returned 10)] fresh_locals)
             sample_synced in
  jobs_started (trace (final r))
  = jobs_started (trace sample_synced) ++
    [(Some {| username := "student" |}, ["home"; "Blackboard"], Some 0)] ∧
  (∃ st w', r = Ok st w') ∧ _force_sync (self (final r)) = false.
Proof.
  apply (force_sync_runs_job (sample_tick 10 (Returned 10)) fresh_locals
           sample_synced (Some {| username := "student" |}) false); reflexivity.
Defined.

(** ** The folder writer *)

Section FolderWrite.

Import Folder.

Variable child_effect : Content -> Path -> gset Path -> gset Path.

Lemma foldl_keep_eligible (mk : BBCourseContent -> Content)
    (fetched : list BBCourseContent) (acc : list Content) :
  (∀ child, Folder.content (mk child) = child) →
  map Folder.content
    (foldl (fun children child =>
              if eligible child then children ++ [mk child] else children)
       acc fetched)
  = map Folder.content acc ++ List.filter eligible fetched.
Proof.
  intros Hmk. revert acc. induction fetched as [|x xs IH]; intros acc; cbn.
  - by rewrite app_nil_r.
  - rewrite IH. destruct (eligible x); [|done].
    rewrite map_app. cbn. by rewrite Hmk, <- app_assoc.
Qed.

(** The constructor keeps the children that have a content handler, in
    the order they were fetched. *)
Lemma children_init (c : BBCourseContent) (ap : BBContentPath) (j : DownloadJob) :
  map Folder.content (children (Folder.__init__ c ap j))
  = List.filter eligible (fetch_content_children j ap).
Proof.
  unfold Folder.__init__. cbn [children].
  by rewrite foldl_keep_eligible.
Qed.

Lemma child_writes_calls (l : list Content) (path : Path) (d : Disk) :
  calls (foldl (fun d child => child_write child_effect child path d) d l)
  = calls d ++ map (fun child => ChildWrite child path) l.
Proof.
  revert d. induction l as [|x xs IH]; intros d; cbn.
  - by rewrite app_nil_r.
  - rewrite IH. cbn. by rewrite <- app_assoc.
Qed.

Lemma ancestors_prefix (q p : Path) : q `prefix_of` p → q ∈ ancestors p.
Proof.
  revert q. induction p as [|x p IH]; intros q [k Hk].
  - destruct q; [|done]. cbn. set_solver.
  - destruct q as [|y q]; cbn; [set_solver|].
    injection Hk as <- Hk. apply list_elem_of_further, list_elem_of_fmap.
    exists q. split; [done|]. apply IH. by exists k.
Qed.

Lemma mkdir_creates (path q : Path) (d : Disk) :
  q `prefix_of` path → q ∈ dirs (mkdir path d).
Proof.
  intros H. unfold mkdir. cbn. apply elem_of_union_r, elem_of_list_to_set.
  by apply ancestors_prefix.
Qed.

End FolderWrite.

(** C3.  A folder built from fetched children of which none has a content
    handler has no children, and its [write] leaves the disk as it is: no
    directory is created and no call is made.  When at least one fetched
    child has a handler, [write] first creates the directory together
    with its parents and then writes the kept children, in order, each to
    that directory: [mkdir] is the first call, every later call is a child
    write, and the disk handed to the first child contains the directory. *)
Theorem folder_write_creates_directory
    (child_effect : Folder.Content -> Path -> gset Path -> gset Path)
    (c : Folder.BBCourseContent) (ap : Folder.BBContentPath)
    (j : Folder.DownloadJob) (path : Path) (d : Folder.Disk) :
  let self := Folder.__init__ c ap j in
  let kept := List.filter Folder.eligible (Folder.fetch_content_children j ap) in
  map Folder.content (Folder.children self) = kept ∧
  (kept = [] → Folder.write child_effect self path d = d) ∧
  (kept ≠ [] →
   Folder.write child_effect self path d
   = foldl (fun d child => Folder.child_write child_effect child path d)
       (Folder.mkdir path d) (Folder.children self) ∧
   Folder.calls (Folder.write child_effect self path d)
   = Folder.calls d ++
     Folder.Mkdir path ::
     map (fun child => Folder.ChildWrite child path) (Folder.children self) ∧
   (∀ q, q `prefix_of` path → q ∈ Folder.dirs (Folder.mkdir path d))).
Proof.
  intros self kept.
  pose proof (children_init c ap j) as Hc. fold self kept in Hc.
  split; [done|]. split.
  - intros Hk. rewrite Hk in Hc. unfold Folder.write.
    destruct (Folder.children self); [done | discriminate].
  - intros Hk. unfold Folder.write.
    destruct (Folder.children self) as [|x xs] eqn:Hx.
    { cbn in Hc. congruence. }
    split; [done|]. split.
    + rewrite child_writes_calls. cbn. by rewrite <- app_assoc.
    + intros q Hq. by apply mkdir_creates.
Qed.

Lemma folder_write_creates_directory_witness :
  let self := Folder.__init__ sample_folder_content sample_api_path sample_job in
  Folder.calls (Folder.write leaf_effect self ["home"; "Week1"] empty_disk)
  = Folder.calls empty_disk ++
    Folder.Mkdir ["home"; "Week1"] ::
    map (fun child => Folder.ChildWrite child ["home"; "Week1"]) (Folder.children self).
Proof.
  apply (folder_write_creates_directory leaf_effect sample_folder_content
           sample_api_path sample_job ["home"; "Week1"] empty_disk).
  cbn. discriminate.
Defined.

(** The listing of the sample folder written out: one directory creation,
    then one child write, for the child that has a handler. *)
Example sample_folder_calls :
  map (fun cl => match cl with
                 | Folder.Mkdir p => (p, None)
                 | Folder.ChildWrite child p =>
                     (p, Some (Folder.id (Folder.content child)))
                 end)
    (Folder.calls
       (Folder.write leaf_effect
          (Folder.__init__ sample_folder_content sample_api_path sample_job)
          ["home"; "Week1"] empty_disk))
  = [(["home"; "Week1"], None); (["home"; "Week1"], Some "_11_1")].
Proof. reflexivity. Qed.


(** * Further properties of the scheduler *)

(** ** Construction *)

(** With the interval of [__init__], the next sync is 1800 seconds after
    the last one when that instant is a datetime. *)
Lemma next_sync_of_1800 (t : datetime) :
  next_sync_of t 1800
  = if bool_decide (datetime_min ≤ t + microseconds 1800 ≤ datetime_max)
    then Some (t + microseconds 1800) else None.
Proof. done. Qed.

(** What [__init__] returns, field by field, when it returns. *)
Lemma init_run (cfg : SyncConfig) (w : World) :
  __init__ cfg = Ok tt w →
  _config (self w) = cfg ∧
  _sync_interval (self w) = 1800 ∧
  _is_logged_in (self w) = false ∧
  _is_active (self w) = false ∧
  _force_sync (self w) = false ∧
  _is_syncing (self w) = false ∧
  sess (self w) = Unset ∧
  _cookies (self w) = Unset ∧
  trace w = [] ∧
  _next_sync (self w)
  = (fun t => t + microseconds 1800) <$> last_sync_time cfg.
Proof.
  unfold __init__. destruct (last_sync_time cfg) as [t|] eqn:Hl.
  - destruct (next_sync_of t 1800) as [next|] eqn:Hn.
    + rewrite (_update_next_sync_set t next) by done.
      apply next_sync_of_value in Hn as ->.
      intros [= <-]. by repeat split.
    + by rewrite (_update_next_sync_overflow t).
  - intros [= <-]. by repeat split.
Qed.

(** [__init__] raises only when the configuration holds a last sync time
    so late that 1800 seconds after it is not a datetime; the exception is
    [OverflowError].  Otherwise the new instance is logged out and
    inactive, nothing has been called, the interval is 30 minutes, and the
    data counts as outdated from the stored last sync time plus 30 minutes
    on, or always when no last sync time is stored. *)
Theorem init_state (cfg : SyncConfig) :
  let returns :=
    ∃ w, __init__ cfg = Ok tt w ∧
         _config (self w) = cfg ∧
         _sync_interval (self w) = 1800 ∧
         _is_logged_in (self w) = false ∧
         _is_active (self w) = false ∧
         _force_sync (self w) = false ∧
         _is_syncing (self w) = false ∧
         sess (self w) = Unset ∧
         trace w = [] ∧
         ∀ now, outdated now w
                = Ok (match last_sync_time cfg with
                      | Some t => bool_decide (t + microseconds 1800 ≤ now)
                      | None => true
                      end) w in
  match last_sync_time cfg with
  | Some t =>
      if bool_decide (datetime_min ≤ t + microseconds 1800 ≤ datetime_max)
      then returns
      else ∃ w, __init__ cfg = Raise OverflowError w
  | None => returns
  end.
Proof.
  intros returns.
  assert (Hret : ∀ w, __init__ cfg = Ok tt w → returns).
  { intros w H.
    destruct (init_run cfg w H) as (Hc & Hi & Hl & Ha & Hf & Hy & Hs & _ & Ht & Hn).
    exists w. repeat (split; [done|]).
    intros now. destruct (last_sync_time cfg) as [t|] eqn:Hlast.
    - apply (outdated_set now t); [by rewrite Hc | by rewrite Hn].
    - apply outdated_unset. by rewrite Hc. }
  destruct (last_sync_time cfg) as [t|] eqn:Hl.
  - pose proof (next_sync_of_1800 t) as Hn. case_bool_decide.
    + eapply Hret. unfold __init__. rewrite Hl.
      by apply (_update_next_sync_set t (t + microseconds 1800)).
    + eexists. unfold __init__. rewrite Hl.
      by apply (_update_next_sync_overflow t).
  - eapply Hret. unfold __init__. by rewrite Hl.
Qed.

Section AuthOnNewInstance.

Variable BlackboardSession : CookieJar -> Session + exn.

(** Construction followed by a successful [auth] gives the state the
    loop runs in: active, with a session and a remembered credential, and
    with a staleness test that evaluates. *)
Lemma auth_starts_loop (cfg : SyncConfig) (c : CookieJar) (u : Session) (w0 : World) :
  BlackboardSession c = inl u →
  __init__ cfg = Ok tt w0 →
  ∃ w, auth BlackboardSession c w0 = Ok true w ∧
       _is_active (self w) = true ∧
       sess (self w) = Assigned (Some u) ∧
       _cookies (self w) = Assigned c ∧
       ∀ now, ∃ stale, outdated now w = Ok stale w.
Proof.
  intros H H0.
  destruct (init_run cfg w0 H0) as (Hc & _ & _ & _ & _ & _ & _ & _ & _ & Hn).
  eexists. split; [by apply auth_accepted|]. repeat split.
  intros now. destruct (last_sync_time cfg) as [t|] eqn:Hl.
  - eexists. apply (outdated_set now t); cbn; [by rewrite Hc, Hl | by rewrite Hn].
  - eexists. apply outdated_unset. cbn. by rewrite Hc.
Qed.

End AuthOnNewInstance.

(** ** Authentication and the session *)

(** A credential the session constructor refuses, given to a new
    instance: [auth] returns false, the loop is not started, no thread is
    spawned and no session is stored; the refused credential is
    remembered all the same. *)
Theorem refused_auth_starts_nothing
    (BlackboardSession : CookieJar -> Session + exn)
    (cfg : SyncConfig) (c : CookieJar) (w0 : World) :
  BlackboardSession c = inr ValueError →
  __init__ cfg = Ok tt w0 →
  ∃ w, auth BlackboardSession c w0 = Ok false w ∧
       _is_active (self w) = false ∧
       _is_logged_in (self w) = false ∧
       sess (self w) = Unset ∧
       threads_started (trace w) = 0%nat ∧
       _cookies (self w) = Assigned c.
Proof.
  intros H H0.
  destruct (init_run cfg w0 H0) as (_ & _ & Hl & Ha & _ & _ & Hs & _ & Ht & _).
  eexists. rewrite (auth_refused _ c w0 H), Hl. split; [done|].
  cbn. rewrite Ha, Hl, Hs, Ht. done.
Qed.

Lemma refused_auth_starts_nothing_witness :
  ∃ w, auth sample_sessions "stale" sample_new = Ok false w ∧
       _is_active (self w) = false ∧
       _is_logged_in (self w) = false ∧
       sess (self w) = Unset ∧
       threads_started (trace w) = 0%nat ∧
       _cookies (self w) = Assigned "stale".
Proof.
  apply (refused_auth_starts_nothing sample_sessions sample_config "stale" sample_new);
    reflexivity.
Defined.

(** [auth] does not look at [_is_active]: every accepted credential
    spawns one more sync thread.  Two accepted calls in a row spawn two
    threads and leave the session and the credential of the second. *)
Theorem auth_twice_starts_two_threads
    (BlackboardSession : CookieJar -> Session + exn)
    (c1 c2 : CookieJar) (u1 u2 : Session) (w : World) :
  BlackboardSession c1 = inl u1 →
  BlackboardSession c2 = inl u2 →
  ∃ w', (auth BlackboardSession c1;; auth BlackboardSession c2) w = Ok true w' ∧
        threads_started (trace w') = (threads_started (trace w) + 2)%nat ∧
        sessions_opened (trace w') = sessions_opened (trace w) ++ [c1; c2] ∧
        sess (self w') = Assigned (Some u2) ∧
        _cookies (self w') = Assigned c2 ∧
        _is_active (self w') = true.
Proof.
  intros H1 H2. eexists. split.
  - unfold mbind, M_bind at 1. rewrite (auth_accepted _ c1 u1 w H1).
    by apply auth_accepted.
  - cbn. unfold threads_started. rewrite !sessions_opened_app, !omap_app, !length_app.
    cbn. rewrite <- app_assoc. repeat split. lia.
Qed.

Lemma auth_twice_starts_two_threads_witness :
  ∃ w', (auth sample_sessions "valid";; auth sample_sessions "valid") sample_new
        = Ok true w' ∧
        threads_started (trace w') = (threads_started (trace sample_new) + 2)%nat ∧
        sessions_opened (trace w')
        = sessions_opened (trace sample_new) ++ ["valid"; "valid"] ∧
        sess (self w') = Assigned (Some {| username := "student" |}) ∧
        _cookies (self w') = Assigned "valid" ∧
        _is_active (self w') = true.
Proof.
  apply (auth_twice_starts_two_threads sample_sessions "valid" "valid"
           {| username := "student" |} {| username := "student" |} sample_new);
    reflexivity.
Defined.

(** The property [username] returns the name of the session an accepted
    [auth] stored.  After [log_out] it raises [AttributeError], as it does
    on an instance that never authenticated; [log_out] clears the session
    but keeps the remembered credential. *)
Theorem username_follows_session
    (BlackboardSession : CookieJar -> Session + exn)
    (c : CookieJar) (u : Session) (w : World) :
  BlackboardSession c = inl u →
  (∃ w', (auth BlackboardSession c;; username_property) w = Ok (username u) w') ∧
  (∃ w', (auth BlackboardSession c;; log_out;; username_property) w
         = Raise AttributeError w' ∧
         _cookies (self w') = Assigned c ∧
         _is_logged_in (self w') = false ∧
         _is_active (self w') = false) ∧
  (sess (self w) = Unset → username_property w = Raise AttributeError w).
Proof.
  intros H. split; [|split].
  - eexists. unfold mbind, M_bind at 1. rewrite (auth_accepted _ c u w H).
    by unfold username_property, mbind, M_bind, get.
  - eexists. split.
    + unfold mbind, M_bind at 1. rewrite (auth_accepted _ c u w H).
      unfold mbind, M_bind at 1. rewrite log_out_run.
      by unfold username_property, mbind, M_bind, get.
    + done.
  - intros Hs. unfold username_property, mbind, M_bind, get. by rewrite Hs.
Qed.

Lemma username_follows_session_witness :
  ∃ w', (auth sample_sessions "valid";; username_property) sample_new
        = Ok "student" w'.
Proof.
  apply (username_follows_session sample_sessions "valid"
           {| username := "student" |} sample_new).
  reflexivity.
Defined.

(** ** Runs of the loop *)

(** While the data is not outdated and no sync is forced, the loop only
    sleeps: a schedule of such ticks starts no job, changes no field and
    no local variable, and adds one sleep of [_check_sleep_time] seconds
    per tick to the trace. *)
Theorem idle_loop_only_sleeps (envs : list tick_env) (l : locals) (w : World) :
  _is_active (self w) = true →
  _force_sync (self w) = false →
  Forall (fun env => outdated (now env) w = Ok false w) envs →
  sync_loop envs l w
  = Ok (Polling l)
      (record_call (replicate (length envs) (EvSleep _check_sleep_time)) (self w) w).
Proof.
  revert w. induction envs as [|env envs IH]; intros w Ha Hf Hall.
  - rewrite (sync_loop_end _ _ Ha). unfold record_call. cbn.
    rewrite app_nil_r. by destruct w.
  - apply Forall_cons in Hall as [Ho Hall].
    rewrite (sync_loop_step _ _ _ _ Ha), (tick_idle _ _ _ Ho Hf).
    rewrite IH; [| done | done |].
    + unfold record_call. cbn. by rewrite <- app_assoc.
    + eapply Forall_impl; [exact Hall|]. intros env' Ho'.
      by apply (outdated_frame _ w).
Qed.

Lemma idle_loop_only_sleeps_witness :
  sync_loop [sample_tick 10 (Returned 10); sample_tick 20 (Raised ValueError)]
    fresh_locals sample_synced
  = Ok (Polling fresh_locals)
      (record_call (replicate 2 (EvSleep _check_sleep_time))
         (self sample_synced) sample_synced).
Proof.
  apply (idle_loop_only_sleeps
           [sample_tick 10 (Returned 10); sample_tick 20 (Raised ValueError)]
           fresh_locals sample_synced); try reflexivity.
  repeat constructor.
Defined.

(** A loop that finds [_is_active] false, as after [stop_sync()], runs no
    tick: [_sync_task] returns at once, starts no job, does not sleep and
    does not authenticate again. *)
Theorem stopped_loop_exits
    (BlackboardSession : CookieJar -> Session + exn)
    (envs : list tick_env) (w : World) :
  (stop_sync;; _sync_task BlackboardSession envs) w
  = Ok (Exited {| reload_session := false; failed_attempts := 0 |})
      (record_call [] (set_is_active false (self w)) w).
Proof.
  unfold mbind, M_bind at 1. unfold stop_sync, modify.
  set (w1 := {| self := set_is_active false (self w); trace := trace w |}).
  assert (Hl : sync_loop envs {| reload_session := false; failed_attempts := 0 |} w1
               = Ok (Exited {| reload_session := false; failed_attempts := 0 |}) w1)
    by (by apply sync_loop_inactive).
  unfold _sync_task.
  rewrite (_sync_task_from_no_reload BlackboardSession _ _ _ _ _ Hl eq_refl).
  unfold record_call, w1. by rewrite app_nil_r.
Qed.

(** The counter of failures stays within its bounds: a tick that starts
    with a counter in [0, _max_retries) and leaves the loop active ends
    with a counter in the same range. *)
Lemma tick_counter_bound (env : tick_env) (l l' : locals) (w w' : World) :
  0 ≤ failed_attempts l < _max_retries →
  tick env l w = Ok l' w' →
  _is_active (self w') = true →
  0 ≤ failed_attempts l' < _max_retries.
Proof.
  intros Hb Ht Ha.
  pose proof (outdated_pure (now env) w) as Hp.
  destruct (outdated (now env) w) as [stale w0|e w0] eqn:Ho; cbn in Hp; subst w0.
  2: { unfold tick, mbind, M_bind at 1 in Ht. by rewrite Ho in Ht. }
  destruct (stale || _force_sync (self w)) eqn:Hrun.
  - assert (Hr : runs_job (now env) w) by (by exists stale).
    destruct (sess (self w)) as [|u] eqn:Hs.
    { rewrite (tick_runs _ _ _ Hr), (sync_now_no_session _ _ _ Hs) in Ht. done. }
    destruct (job env) as [t|e] eqn:Hj.
    { rewrite (tick_returned _ _ _ u t Hr Hs Hj) in Ht.
      injection Ht as <- <-. cbn. unfold _max_retries. lia. }
    destruct (decide (e = ValueError)) as [->|He1].
    { rewrite (tick_session_expired _ _ _ u Hr Hs Hj) in Ht.
      injection Ht as <- <-. done. }
    destruct (decide (e = ConnectionError)) as [->|He2].
    { destruct (log_raises env) as [x|] eqn:Hlog.
      { by rewrite (tick_log_raises _ _ _ u x Hr Hs Hj Hlog) in Ht. }
      rewrite (tick_connection_error _ _ _ u Hr Hs Hj Hlog) in Ht.
      injection Ht as <- <-. cbn in *.
      case_bool_decide; [done | lia]. }
    by rewrite (tick_uncaught _ _ _ u e Hr Hs Hj He1 He2) in Ht.
  - apply orb_false_iff in Hrun as [-> Hf].
    rewrite (tick_idle _ _ _ Ho Hf) in Ht. by injection Ht as <- <-.
Qed.

(** Loop invariant: as long as the loop is polling, fewer than
    [_max_retries] failures have been counted, whatever the jobs of the
    schedule did. *)
Theorem polling_loop_counter_below_limit (envs : list tick_env) (l l' : locals)
    (w w' : World) :
  0 ≤ failed_attempts l < _max_retries →
  sync_loop envs l w = Ok (Polling l') w' →
  0 ≤ failed_attempts l' < _max_retries ∧ _is_active (self w') = true.
Proof.
  revert l w. induction envs as [|env envs IH]; intros l w Hb Hl.
  - destruct (_is_active (self w)) eqn:Ha.
    + rewrite (sync_loop_end _ _ Ha) in Hl. by injection Hl as <- <-.
    + by rewrite (sync_loop_inactive _ _ _ Ha) in Hl.
  - destruct (_is_active (self w)) eqn:Ha.
    2: { by rewrite (sync_loop_inactive _ _ _ Ha) in Hl. }
    rewrite (sync_loop_step _ _ _ _ Ha) in Hl.
    destruct (tick env l w) as [l1 w1|e w1] eqn:Ht; [|done].
    destruct (_is_active (self w1)) eqn:Ha1.
    + apply (IH l1 w1); [|done]. by apply (tick_counter_bound env l l1 w w1).
    + by rewrite (sync_loop_inactive _ _ _ Ha1) in Hl.
Qed.

Lemma polling_loop_counter_below_limit_witness :
  ∃ l' w',
    sync_loop [sample_tick 10 (Raised ConnectionError);
               sample_tick 20 (Raised ConnectionError)]
      fresh_locals sample_active = Ok (Polling l') w' ∧
    0 ≤ failed_attempts l' < _max_retries ∧ _is_active (self w') = true.
Proof.
  eexists _, _. split; [vm_compute; reflexivity|].
  eapply (polling_loop_counter_below_limit
            [sample_tick 10 (Raised ConnectionError);
             sample_tick 20 (Raised ConnectionError)]
            fresh_locals _ sample_active).
  - unfold _max_retries. cbn. lia.
  - vm_compute. reflexivity.
Defined.

(** On an instance with no stored last sync time, a job that returns does
    not store one: every tick of a schedule of returning jobs starts a
    job again, each with no cutoff, and the last sync time is still unset
    at the end. *)
Theorem never_synced_runs_every_tick (envs : list tick_env) (l : locals)
    (w : World) (u : option Session) :
  _is_active (self w) = true →
  sess (self w) = Assigned u →
  last_sync_time (_config (self w)) = None →
  Forall (fun env => ∃ t, job env = Returned t) envs →
  ∃ l' w', sync_loop envs l w = Ok (Polling l') w' ∧
           jobs_started (trace w')
           = jobs_started (trace w) ++
             replicate (length envs) (u, download_location (_config (self w)), None) ∧
           last_sync_time (_config (self w')) = None.
Proof.
  revert l w. induction envs as [|env envs IH]; intros l w Ha Hs Hn Hall.
  - exists l, w. rewrite (sync_loop_end _ _ Ha). cbn. by rewrite app_nil_r.
  - apply Forall_cons in Hall as [[t Hj] Hall].
    assert (Hr : runs_job (now env) w)
      by (apply runs_job_outdated; by apply outdated_unset).
    rewrite (sync_loop_step _ _ _ _ Ha), (tick_returned _ _ _ u t Hr Hs Hj).
    destruct (IH (set_failed_attempts 0 l)
                (record_call [job_call u w; EvSleep _check_sleep_time]
                   (attempt_done
                      (set_last_sync (Assigned t) (set_is_syncing true (self w)))) w))
      as (l' & w' & Hl & Hjobs & Hn'); [done | done | done | exact Hall |].
    exists l', w'. split; [exact Hl|]. split; [|exact Hn'].
    rewrite Hjobs. cbn. rewrite jobs_started_app. cbn. rewrite Hn.
    by rewrite <- app_assoc.
Qed.

Lemma never_synced_runs_every_tick_witness :
  ∃ l' w',
    sync_loop [sample_tick 10 (Returned 10); sample_tick 20 (Returned 20)]
      fresh_locals sample_active = Ok (Polling l') w' ∧
    jobs_started (trace w')
    = jobs_started (trace sample_active) ++
      replicate 2 (Some {| username := "student" |}, ["home"; "Blackboard"], None) ∧
    last_sync_time (_config (self w')) = None.
Proof.
  apply (never_synced_runs_every_tick
           [sample_tick 10 (Returned 10); sample_tick 20 (Returned 20)]
           fresh_locals sample_active (Some {| username := "student" |}));
    try reflexivity.
  repeat constructor; by eexists.
Defined.

(** Connection errors in a row, each written to the failure log, from any
    count below the limit: the run ends logged out at the failure that
    reaches [_max_retries], having called the session constructor for
    none of them. *)
Lemma connection_errors_exit (envs rest : list tick_env) (l : locals)
    (w : World) (u : option Session) :
  _is_active (self w) = true →
  sess (self w) = Assigned u →
  0 ≤ failed_attempts l < _max_retries →
  failed_attempts l + Z.of_nat (length envs) = _max_retries →
  Forall (fun env => job env = Raised ConnectionError ∧
                     log_raises env = None ∧
                     outdated (now env) w = Ok true w) envs →
  ∃ l' w', sync_loop (envs ++ rest) l w = Ok (Exited l') w' ∧
           reload_session l' = reload_session l ∧
           failed_attempts l' = _max_retries ∧
           _is_logged_in (self w') = false ∧
           sess (self w') = Assigned None ∧
           _is_active (self w') = false ∧
           _cookies (self w') = _cookies (self w) ∧
           sessions_opened (trace w') = sessions_opened (trace w) ∧
           threads_started (trace w') = threads_started (trace w).
Proof.
  revert l w. induction envs as [|env envs IH]; intros l w Ha Hs Hb Hlen Hall.
  - cbn in Hlen. lia.
  - apply Forall_cons in Hall as [(Hj & Hlog & Ho) Hall].
    pose proof (runs_job_outdated _ _ Ho) as Hr.
    cbn [app]. rewrite (sync_loop_step _ _ _ _ Ha).
    rewrite (tick_connection_error _ _ _ u Hr Hs Hj Hlog).
    case_bool_decide as Hlim.
    + eexists _, _. split; [by apply sync_loop_inactive|].
      cbn. unfold threads_started.
      rewrite sessions_opened_app, omap_app, length_app. cbn.
      rewrite app_nil_r. repeat split; lia.
    + destruct (IH (set_failed_attempts (failed_attempts l + 1) l)
                  (record_call
                     [job_call u w;
                      EvLogDir (_log_dir (self w));
                      EvLogException (_log_dir (self w))
                        (_log_path (self w) (stamp env)) ConnectionError;
                      EvSleep _check_sleep_time]
                     (attempt_done (set_is_syncing true (self w))) w))
        as (l' & w' & Hl & Hrel & Hf & Hli & Hse & Hac & Hco & Hso & Hth);
        [| | | | | exists l', w'].
      * done.
      * done.
      * cbn. lia.
      * cbn. cbn in Hlen. lia.
      * eapply Forall_impl; [exact Hall|]. intros env' (Hj' & Hlog' & Ho').
        split; [done|]. split; [done|]. by apply (outdated_frame _ w).
      * split; [exact Hl|]. rewrite Hrel, Hf, Hli, Hse, Hac, Hco, Hso, Hth.
        cbn. unfold threads_started.
        rewrite sessions_opened_app, omap_app, length_app. cbn.
        rewrite app_nil_r. repeat split; lia.
Qed.

(** The log-out forced by [_max_retries] connection errors, each written
    to the failure log, is final for the run: [_sync_task] ends without
    calling the session constructor and without starting a thread, so the
    instance stays logged out until [auth] is called from outside. *)
Theorem retry_limit_does_not_reauthenticate
    (BlackboardSession : CookieJar -> Session + exn)
    (e1 e2 e3 : tick_env) (rest : list tick_env) (w : World) (u : option Session) :
  _is_active (self w) = true →
  sess (self w) = Assigned u →
  Forall (fun env => job env = Raised ConnectionError ∧
                     log_raises env = None ∧
                     outdated (now env) w = Ok true w) [e1; e2; e3] →
  ∃ l' w', _sync_task BlackboardSession (e1 :: e2 :: e3 :: rest) w
           = Ok (Exited l') w' ∧
           _is_logged_in (self w') = false ∧
           sess (self w') = Assigned None ∧
           _is_active (self w') = false ∧
           sessions_opened (trace w') = sessions_opened (trace w) ∧
           threads_started (trace w') = threads_started (trace w).
Proof.
  intros Ha Hs Hall.
  destruct (connection_errors_exit [e1; e2; e3] rest
              {| reload_session := false; failed_attempts := 0 |} w u Ha Hs)
    as (l' & w' & Hl & Hrel & _ & Hli & Hse & Hac & _ & Hso & Hth);
    [unfold _max_retries; cbn; lia | done | done |].
  exists l', w'. split; [|done].
  by apply (_sync_task_from_no_reload BlackboardSession _ l' _ w w').
Qed.

Lemma retry_limit_does_not_reauthenticate_witness :
  ∃ l' w',
    _sync_task sample_sessions
      [sample_tick 10 (Raised ConnectionError);
       sample_tick 20 (Raised ConnectionError);
       sample_tick 30 (Raised ConnectionError);
       sample_tick 40 (Returned 40)] sample_active
    = Ok (Exited l') w' ∧
    _is_logged_in (self w') = false ∧
    sess (self w') = Assigned None ∧
    _is_active (self w') = false ∧
    sessions_opened (trace w') = sessions_opened (trace sample_active) ∧
    threads_started (trace w') = threads_started (trace sample_active).
Proof.
  apply (retry_limit_does_not_reauthenticate sample_sessions
           (sample_tick 10 (Raised ConnectionError))
           (sample_tick 20 (Raised ConnectionError))
           (sample_tick 30 (Raised ConnectionError))
           [sample_tick 40 (Returned 40)] sample_active
           (Some {| username := "student" |})); try reflexivity.
  repeat constructor.
Defined.

(** An exception of the job that the loop does not catch ends the loop
    with its flags as they were during the job: [_is_syncing] stays true
    and [_is_active] stays true although no tick will run again, and the
    user is still logged in with the same session. *)
Theorem uncaught_exception_leaves_flags_raised (env : tick_env)
    (rest : list tick_env) (l : locals) (w : World) (u : option Session) (e : exn) :
  _is_active (self w) = true →
  sess (self w) = Assigned u →
  runs_job (now env) w →
  job env = Raised e →
  e ≠ ValueError → e ≠ ConnectionError →
  ∃ w', sync_loop (env :: rest) l w = Raise e w' ∧
        _is_syncing (self w') = true ∧
        _is_active (self w') = true ∧
        _is_logged_in (self w') = _is_logged_in (self w) ∧
        sess (self w') = Assigned u.
Proof.
  intros Ha Hs Hr Hj H1 H2. eexists. split.
  - by rewrite (sync_loop_step _ _ _ _ Ha), (tick_uncaught _ _ _ u e Hr Hs Hj H1 H2).
  - done.
Qed.

Lemma uncaught_exception_leaves_flags_raised_witness :
  ∃ w', sync_loop [sample_tick 10 (Raised TypeError); sample_tick 20 (Returned 20)]
          fresh_locals sample_active = Raise TypeError w' ∧
        _is_syncing (self w') = true ∧
        _is_active (self w') = true ∧
        _is_logged_in (self w') = _is_logged_in (self sample_active) ∧
        sess (self w') = Assigned (Some {| username := "student" |}).
Proof.
  apply (uncaught_exception_leaves_flags_raised
           (sample_tick 10 (Raised TypeError)) [sample_tick 20 (Returned 20)]
           fresh_locals sample_active (Some {| username := "student" |}) TypeError);
    try reflexivity; try discriminate.
  exists true. split; reflexivity.
Defined.

(** A loop started on an instance whose [sess] attribute was never
    assigned ([start_sync()] without [auth]) fails at its first due tick:
    reading [self.sess] raises [AttributeError] before any job is
    started, and [_is_syncing] is left true. *)
Theorem loop_without_session_raises (env : tick_env) (rest : list tick_env)
    (l : locals) (w : World) :
  sess (self w) = Unset →
  runs_job (now env) w →
  ∃ w', (start_sync;; sync_loop (env :: rest) l) w = Raise AttributeError w' ∧
        jobs_started (trace w') = jobs_started (trace w) ∧
        threads_started (trace w') = S (threads_started (trace w)) ∧
        _is_syncing (self w') = true.
Proof.
  intros Hs (stale & Ho & Hb).
  unfold mbind, M_bind at 1. unfold start_sync, mbind, M_bind, modify, emit.
  set (w1 := {| self := set_is_active true (self w);
                trace := trace w ++ [EvThreadStart] |}).
  assert (Hr : runs_job (now env) w1).
  { exists stale. split; [|done]. by apply (outdated_frame _ w). }
  assert (Hs1 : sess (self w1) = Unset) by done.
  eexists. split.
  - rewrite sync_loop_step by done.
    by rewrite (tick_runs _ _ _ Hr), (sync_now_no_session _ _ _ Hs1).
  - cbn. unfold threads_started.
    rewrite app_nil_r, jobs_started_app, omap_app, length_app. cbn.
    rewrite app_nil_r. repeat split. lia.
Qed.

Lemma loop_without_session_raises_witness :
  ∃ w', (start_sync;; sync_loop [sample_tick 10 (Returned 10)] fresh_locals)
          sample_new = Raise AttributeError w' ∧
        jobs_started (trace w') = jobs_started (trace sample_new) ∧
        threads_started (trace w') = S (threads_started (trace sample_new)) ∧
        _is_syncing (self w') = true.
Proof.
  apply (loop_without_session_raises (sample_tick 10 (Returned 10)) []
           fresh_locals sample_new).
  - reflexivity.
  - exists true. split; reflexivity.
Defined.



(** What a tick can be, by the staleness test, the session attribute
    and the outcome of the job. *)
Lemma tick_cases (env : tick_env) (l : locals) (w : World) :
  tick env l w = Raise TypeError w ∨
  tick env l w = Ok l (record_call [EvSleep _check_sleep_time] (self w) w) ∨
  tick env l w = Raise AttributeError (record_call [] (set_is_syncing true (self w)) w) ∨
  ∃ u, sess (self w) = Assigned u ∧ runs_job (now env) w ∧
       ((∃ t, job env = Returned t) ∨
        job env = Raised ValueError ∨
        (job env = Raised ConnectionError ∧ log_raises env = None) ∨
        (∃ x, job env = Raised ConnectionError ∧ log_raises env = Some x) ∨
        (∃ e, job env = Raised e ∧ e ≠ ValueError ∧ e ≠ ConnectionError)).
Proof.
  pose proof (outdated_pure (now env) w) as Hp.
  destruct (outdated (now env) w) as [stale w0|e w0] eqn:Ho; cbn in Hp; subst w0.
  2: { left. unfold tick, mbind, M_bind at 1. rewrite Ho.
       unfold outdated, mbind, M_bind, get in Ho.
       destruct (last_sync_time (_config (self w))); [|done].
       destruct (_next_sync (self w)); [done|]. by injection Ho as <-. }
  destruct (stale || _force_sync (self w)) eqn:Hrun.
  - assert (Hr : runs_job (now env) w) by (by exists stale).
    destruct (sess (self w)) as [|u] eqn:Hs.
    { right. right. left.
      by rewrite (tick_runs _ _ _ Hr), (sync_now_no_session _ _ _ Hs). }
    right. right. right. exists u. split; [done|]. split; [done|].
    destruct (job env) as [t|e]; [left; by exists t|].
    destruct (decide (e = ValueError)) as [->|He1]; [by right; left|].
    destruct (decide (e = ConnectionError)) as [->|He2].
    { destruct (log_raises env) as [x|] eqn:Hlog.
      - right. right. right. left. by exists x.
      - by right; right; left. }
    right. right. right. right. by exists e.
  - apply orb_false_iff in Hrun as [-> Hf].
    right. left. by apply tick_idle.
Qed.

(** A tick changes none of the settings, whatever its job does and
    whether it returns or raises. *)
Lemma tick_keeps_settings (env : tick_env) (l : locals) (w : World) :
  same_settings (self w) (self (final (tick env l w))).
Proof.
  destruct (tick_cases env l w)
    as [H | [H | [H | (u & Hs & Hr &
         [[t Hj] | [Hj | [[Hj Hlog] | [(x & Hj & Hlog) | (e & Hj & H1 & H2)]]]])]]].
  - by rewrite H.
  - by rewrite H.
  - by rewrite H.
  - by rewrite (tick_returned _ _ _ u t Hr Hs Hj).
  - by rewrite (tick_session_expired _ _ _ u Hr Hs Hj).
  - rewrite (tick_connection_error _ _ _ u Hr Hs Hj Hlog). cbn. by case_bool_decide.
  - by rewrite (tick_log_raises _ _ _ u x Hr Hs Hj Hlog).
  - by rewrite (tick_uncaught _ _ _ u e Hr Hs Hj H1 H2).
Qed.

(** A run of the loop, however long and whatever its jobs do, never
    changes the stored configuration (download location and last sync
    time), the instant of the next sync, the interval or the remembered
    credential. *)
Theorem loop_keeps_settings (envs : list tick_env) (l : locals) (w : World) :
  same_settings (self w) (self (final (sync_loop envs l w))).
Proof.
  revert l w. induction envs as [|env envs IH]; intros l w.
  - destruct (_is_active (self w)) eqn:Ha.
    + by rewrite (sync_loop_end _ _ Ha).
    + by rewrite (sync_loop_inactive _ _ _ Ha).
  - destruct (_is_active (self w)) eqn:Ha.
    2: { by rewrite (sync_loop_inactive _ _ _ Ha). }
    rewrite (sync_loop_step _ _ _ _ Ha).
    pose proof (tick_keeps_settings env l w) as Ht.
    destruct (tick env l w) as [l1 w1|e w1]; cbn in Ht; [|exact Ht].
    destruct (IH l1 w1) as (H1 & H2 & H3 & H4).
    destruct Ht as (H1' & H2' & H3' & H4').
    repeat split; congruence.
Qed.




(** ** The download location and the interval *)

(** A due tick with a session builds its job from the session, the
    download location and the stored last sync time, whatever the job and
    the log write do afterwards. *)
Lemma tick_job_arguments (env : tick_env) (l : locals) (w : World)
    (u : option Session) :
  runs_job (now env) w →
  sess (self w) = Assigned u →
  jobs_started (trace (final (tick env l w)))
  = jobs_started (trace w) ++
    [(u, download_location (_config (self w)), last_sync_time (_config (self w)))].
Proof.
  intros Hr Hs. destruct (job env) as [t|e] eqn:Hj.
  { rewrite (tick_returned _ _ _ u t Hr Hs Hj). cbn.
    rewrite jobs_started_app. by cbn. }
  destruct (decide (e = ValueError)) as [->|He1].
  { rewrite (tick_session_expired _ _ _ u Hr Hs Hj). cbn.
    rewrite jobs_started_app. by cbn. }
  destruct (decide (e = ConnectionError)) as [->|He2].
  { destruct (log_raises env) as [x|] eqn:Hlog.
    - rewrite (tick_log_raises _ _ _ u x Hr Hs Hj Hlog). cbn.
      rewrite jobs_started_app. unfold log_dir_events.
      destruct (log_mkdir env); by cbn.
    - rewrite (tick_connection_error _ _ _ u Hr Hs Hj Hlog). cbn.
      rewrite jobs_started_app. by cbn. }
  rewrite (tick_uncaught _ _ _ u e Hr Hs Hj He1 He2). cbn.
  rewrite jobs_started_app. by cbn.
Qed.

(** After [change_download_location(new_dir)] without [redownload], the
    next job is built for the new location with the cutoff that was
    stored before, and a connection error of that job, when the failure
    log can be written, is logged in the directory [log] under the new
    location. *)
Theorem new_location_is_used_by_next_job (new_dir : Path) (env : tick_env)
    (l : locals) (w : World) (u : option Session) :
  new_dir ≠ download_location (_config (self w)) →
  sess (self w) = Assigned u →
  runs_job (now env) w →
  job env = Raised ConnectionError →
  log_raises env = None →
  ∃ l' w', (change_download_location new_dir false;; tick env l) w = Ok l' w' ∧
           jobs_started (trace w')
           = jobs_started (trace w) ++
             [(u, new_dir, last_sync_time (_config (self w)))] ∧
           logged_exceptions (trace w')
           = logged_exceptions (trace w) ++ [(new_dir ++ ["log"], ConnectionError)] ∧
           _next_sync (self w') = _next_sync (self w).
Proof.
  intros Hne Hs (stale & Ho & Hb) Hj Hlog.
  unfold mbind, M_bind at 1. rewrite (change_download_location_keep _ _ Hne).
  set (w1 := record_call [] _ w).
  assert (Hr : runs_job (now env) w1).
  { exists stale. split; [|done]. by apply (outdated_frame _ w). }
  assert (Hs1 : sess (self w1) = Assigned u) by done.
  rewrite (tick_connection_error _ _ _ u Hr Hs1 Hj Hlog).
  eexists _, _. split; [done|].
  cbn. rewrite app_nil_r, jobs_started_app, logged_exceptions_app. cbn.
  split; [done|]. split; [done|]. by case_bool_decide.
Qed.

Lemma new_location_is_used_by_next_job_witness :
  ∃ l' w',
    (change_download_location ["mnt"; "usb"] false;;
     tick (sample_tick 10 (Raised ConnectionError)) fresh_locals) sample_active
    = Ok l' w' ∧
    jobs_started (trace w')
    = jobs_started (trace sample_active) ++
      [(Some {| username := "student" |}, ["mnt"; "usb"], None)] ∧
    logged_exceptions (trace w')
    = logged_exceptions (trace sample_active) ++
      [(["mnt"; "usb"] ++ ["log"], ConnectionError)] ∧
    _next_sync (self w') = _next_sync (self sample_active).
Proof.
  apply (new_location_is_used_by_next_job ["mnt"; "usb"]
           (sample_tick 10 (Raised ConnectionError)) fresh_locals sample_active
           (Some {| username := "student" |})); try reflexivity.
  - vm_compute. discriminate.
  - exists true. split; reflexivity.
Defined.

(** [change_download_location(new_dir, redownload=True)] has changed the
    instance by the time it raises: in the state it leaves, the data is
    outdated at every instant, and the next tick builds its job for the
    new location with no cutoff, whatever that job then does. *)
Theorem redownload_leaves_instance_outdated (new_dir : Path) (env : tick_env)
    (l : locals) (w : World) (u : option Session) :
  new_dir ≠ download_location (_config (self w)) →
  sess (self w) = Assigned u →
  let w1 := final (change_download_location new_dir true w) in
  (∀ now, outdated now w1 = Ok true w1) ∧
  jobs_started (trace (final (tick env l w1)))
  = jobs_started (trace w) ++ [(u, new_dir, None)].
Proof.
  intros Hne Hs w1.
  assert (Hw1 : w1 = {| self := set_config {| download_location := new_dir;
                                               last_sync_time := None |} (self w);
                        trace := trace w |}).
  { unfold w1, change_download_location, mbind, M_bind, get.
    case_decide; [|done].
    unfold last_sync_time_setter, _update_next_sync, mbind, M_bind, modify, get. cbn.
    by destruct (timedelta (_sync_interval (self w))). }
  assert (Hout : ∀ now, outdated now w1 = Ok true w1).
  { intros now. apply outdated_unset. by rewrite Hw1. }
  split; [exact Hout|].
  assert (Hr : runs_job (now env) w1) by (by apply runs_job_outdated).
  assert (Hs1 : sess (self w1) = Assigned u) by (by rewrite Hw1).
  rewrite (tick_job_arguments env l w1 u Hr Hs1). by rewrite Hw1.
Qed.

Lemma redownload_leaves_instance_outdated_witness :
  outdated 10 (final (change_download_location ["mnt"; "usb"] true sample_synced))
  = Ok true (final (change_download_location ["mnt"; "usb"] true sample_synced)).
Proof.
  apply (proj1 (redownload_leaves_instance_outdated ["mnt"; "usb"]
                  (sample_tick 10 (Returned 10)) fresh_locals sample_synced
                  (Some {| username := "student" |})
                  ltac:(vm_compute; discriminate) eq_refl)).
Defined.

(** Assigning [sync_interval] always returns and does not move the next
    sync: [outdated] answers as before.  The new interval counts from the
    next time the last sync time is set: [_next_sync] becomes that time
    plus the new interval when this is a datetime; otherwise the setter
    raises [OverflowError], with the last sync time already stored and
    [_next_sync] as it was. *)
Theorem sync_interval_applies_to_next_sync (p : Z) (w : World) :
  let w1 := final (sync_interval_setter p w) in
  sync_interval_setter p w = Ok tt w1 ∧
  _sync_interval (self w1) = p ∧
  _next_sync (self w1) = _next_sync (self w) ∧
  (∀ now b, outdated now w = Ok b w → outdated now w1 = Ok b w1) ∧
  (∀ t, match next_sync_of t p with
        | Some next =>
            next = t + microseconds p ∧
            ∃ w2, last_sync_time_setter (Some t) w1 = Ok tt w2 ∧
                  _next_sync (self w2) = Some next
        | None =>
            ∃ w2, last_sync_time_setter (Some t) w1 = Raise OverflowError w2 ∧
                  last_sync_time (_config (self w2)) = Some t ∧
                  _next_sync (self w2) = _next_sync (self w)
        end).
Proof.
  cbn. repeat split.
  - intros now b. by apply outdated_frame.
  - intros t. destruct (next_sync_of t p) as [next|] eqn:Hn.
    + split; [by apply next_sync_of_value|]. eexists. split.
      * unfold last_sync_time_setter, mbind, M_bind, modify.
        by rewrite (_update_next_sync_set t next).
      * done.
    + eexists. split.
      * unfold last_sync_time_setter, mbind, M_bind, modify.
        by rewrite (_update_next_sync_overflow t).
      * done.
Qed.

Lemma sync_interval_applies_to_next_sync_witness :
  outdated 10 (final (sync_interval_setter 5 sample_synced))
  = Ok false (final (sync_interval_setter 5 sample_synced)).
Proof.
  apply (sync_interval_applies_to_next_sync 5 sample_synced). reflexivity.
Defined.

(** An interval of 10^14 seconds is stored by the setter; the next
    assignment of the last sync time then raises [OverflowError]. *)
Example huge_interval_overflows :
  ∃ w2, (sync_interval_setter (10 ^ 14);; last_sync_time_setter (Some 0)) sample_active
        = Raise OverflowError w2 ∧
        last_sync_time (_config (self w2)) = Some 0 ∧
        _next_sync (self w2) = None.
Proof. eexists. split; [vm_compute; reflexivity|]. by vm_compute. Qed.

(** * Further properties of the folder *)

Section FolderChildren.

Import Folder.

Lemma foldl_keep_Forall (P : Content -> Prop) (mk : BBCourseContent -> Content)
    (fetched : list BBCourseContent) (acc : list Content) :
  (∀ child, eligible child = true → P (mk child)) →
  Forall P acc →
  Forall P (foldl (fun children child =>
                     if eligible child then children ++ [mk child] else children)
              acc fetched).
Proof.
  intros Hmk. revert acc. induction fetched as [|x xs IH]; intros acc Hacc; cbn.
  - done.
  - apply IH. destruct (eligible x) eqn:Hx; [|done].
    apply Forall_app. split; [done|]. constructor; [by apply Hmk | done].
Qed.

End FolderChildren.

(** Every child a folder keeps has a content handler, shares the job of
    the folder, and is addressed by its own id as [content_id] and by the
    [course_id] of the folder's selector; when the selector has no
    [course_id], the children carry [None] there. *)
Theorem folder_children_selectors (c : Folder.BBCourseContent)
    (ap : Folder.BBContentPath) (j : Folder.DownloadJob) :
  Forall (fun child =>
            Folder.contentHandler (Folder.content child) ≠ None ∧
            Folder.job child = j ∧
            Folder.api_path child !! "content_id"
            = Some (Some (Folder.id (Folder.content child))) ∧
            Folder.api_path child !! "course_id"
            = Some (Folder.api_get ap "course_id") ∧
            dom (Folder.api_path child) = ({["content_id"; "course_id"]} : gset string))
    (Folder.children (Folder.__init__ c ap j)).
Proof.
  unfold Folder.__init__. cbn [Folder.children].
  apply foldl_keep_Forall; [|done].
  intros child He. cbn [Folder.content Folder.api_path Folder.job].
  unfold Folder.BBContentPath in *.
  split; [|split; [done|split; [|split]]].
  - unfold Folder.eligible in He. by destruct (Folder.contentHandler child).
  - by rewrite lookup_insert_eq.
  - rewrite lookup_insert_ne by done. by rewrite lookup_insert_eq.
  - rewrite !dom_insert_L. set_solver.
Qed.
